(** * node-webworker: the master-side worker controller and the child launcher

    A shallow embedding of [WorkerImpl] (the controller defined in the
    master-side module) and of the ['msg'] listener of [libexec/worker.js],
    written as explicit state passing over the closure variables of
    [WorkerImpl] and the part of the node runtime they act on (timers,
    the next-tick queue, the listening server, the child process). *)

From Stdlib Require Import List ZArith NArith PArith Bool String Ascii Lia.
From Stdlib Require Import DecimalString DecimalN.
Import ListNotations.
Set Warnings "-register-all".
Open Scope string_scope.
Open Scope list_scope.

(** ** JavaScript values, as far as the controller looks at them *)

Module JS.

Inductive value : Type :=
| VUndef
| VNull
| VBool (b : bool)
| VNum (z : Z)
| VStr (s : string)
| VArr (elems : list value)
| VObj (fields : list (string * value)).

Inductive exn : Type :=
| AssertionError
| TypeError.

Inductive result (A : Type) : Type :=
| Ok (a : A)
| Throw (e : exn).
Arguments Ok {A} a.
Arguments Throw {A} e.

Definition bind {A B : Type} (r : result A) (k : A -> result B) : result B :=
  match r with
  | Ok a => k a
  | Throw e => Throw e
  end.

(** [assert.ok(b)], [assert.equal(x, undefined)] and the like: the
    condition is computed by the caller. *)
Definition assert (b : bool) : result unit :=
  if b then Ok tt else Throw AssertionError.

(** Truthiness, for [if (fd)]. *)
Definition truthy (v : value) : bool :=
  match v with
  | VUndef | VNull => false
  | VBool b => b
  | VNum z => negb (z =? 0)%Z
  | VStr s => negb (s =? "")%string
  | VArr _ | VObj _ => true
  end.

Definition decimal (n : N) : string := NilEmpty.string_of_uint (N.to_uint n).

Fixpoint lookup_field (k : string) (fs : list (string * value)) : value :=
  match fs with
  | [] => VUndef
  | (k', v) :: fs' => if (k =? k')%string then v else lookup_field k fs'
  end.

(** [v[i]] for a literal index [i]: reading a property of [undefined] or
    [null] throws, a missing property reads as [undefined]. *)
Definition index (v : value) (i : nat) : result value :=
  match v with
  | VUndef | VNull => Throw TypeError
  | VArr l => Ok (nth i l VUndef)
  | VStr s => Ok (match String.get i s with
                  | Some c => VStr (String c EmptyString)
                  | None => VUndef
                  end)
  | VObj fs => Ok (lookup_field (decimal (N.of_nat i)) fs)
  | VBool _ | VNum _ => Ok VUndef
  end.

(** [v === c] for a numeric constant [c], as the [case] labels of a
    [switch] compare. *)
Definition is_tag (v : value) (c : Z) : bool :=
  match v with
  | VNum z => (z =? c)%Z
  | _ => false
  end.

(** [Array.prototype.pop]: the array without its last element, and that
    element ([undefined] for an empty array). *)
Definition pop (m : list value) : list value * value :=
  (removelast m, last m VUndef).

End JS.
Import JS.

Notation "x <- r ;; k" := (bind r (fun x => k))
  (at level 61, r at next level, right associativity).
Notation "r ;;; k" := (bind r (fun _ => k))
  (at level 61, right associativity).

(** ** The shared utility module

    [webworker-util] (the message-type tags, [isValidMessage], [MsgStream]
    and [debug]) is required by both files and taken here as an interface:
    the tags and the validity test are its fields; [MsgStream.send] is
    recorded as the sequence of its calls, [debug] as the sequence of
    the diagnostics handed to it. *)

Record wwutil : Type := {
  MSGTYPE_NOOP : Z;
  MSGTYPE_ERROR : Z;
  MSGTYPE_CLOSE : Z;
  MSGTYPE_USER : Z;
  MSGTYPE_HANDSHAKE : Z;
  isValidMessage : value -> bool
}.

(** The tags form an enumeration: no two of them coincide. *)
Definition distinct_tags (U : wwutil) : Prop :=
  NoDup [MSGTYPE_NOOP U; MSGTYPE_ERROR U; MSGTYPE_CLOSE U;
         MSGTYPE_USER U; MSGTYPE_HANDSHAKE U].

(** ** The controller's state

    The first record holds the variables closed over by [WorkerImpl];
    the second the part of the node runtime its callbacks act on. *)

Record child_process : Type := {
  cp_pid : option positive;      (* [cp.pid]: undefined once the process has exited *)
  cp_args : list string          (* socket path and script location *)
}.

Inductive server : Type :=
| SrvIdle          (* created by [net.createServer], [listen] not called *)
| SrvBinding       (* [listen] called, ['listening'] not yet emitted *)
| SrvListening
| SrvClosed.

(** The closures handed to [process.nextTick]; each captures the
    arguments of the callback that scheduled it. *)
Inductive task : Type :=
| TaskError (msg : value)
| TaskMessage (msg fd : value)
| TaskExit (code signal : value).

Record message_event : Type := {
  data : value;
  fd : option value
}.

(** What [self.emit] hands to the listeners of the controller. *)
Inductive emission : Type :=
| EmError (payload : value)
| EmMessage (e : message_event)
| EmExit (code signal : value).

(** The texts given to [wwutil.debug], by their arguments. *)
Inductive diag : Type :=
| DInvalid (msg : value)
| DReceived (type payload : value)
| DUnexpected (msg : value)
| DSpawned (p : option positive) (src : string)
| DExited (p : option positive) (src : string) (code signal : value)
| DNoHandshake (p : option positive)
| DKill (p : option positive).

(** [killTimeoutID] holds the timer object returned by [setTimeout],
    which is truthy whenever it is defined; a number identifies it here. *)
Record closure : Type := {
  killTimeoutID : option nat;
  pid : option positive;
  cp : option child_process;
  stream : option nat;
  msgStream : option nat;
  msgQueue : list (list value);
  sockPath : string;
  src : string
}.

Record runtime : Type := {
  srv : server;
  destroyed : bool;                    (* [stream.destroy()] was called *)
  sent : list (list value * value);    (* the calls [msgStream.send(m, fd)] *)
  timers : list (nat * Z);             (* pending timeouts: id and delay *)
  next_timer : nat;
  ticks : list task;                   (* the next-tick queue *)
  emitted : list emission;
  kills : list string;                 (* the calls [cp.kill(sig)] *)
  log : list (nat * diag)              (* the calls [wwutil.debug(level, text)] *)
}.

Record state : Type := {
  vars : closure;
  rt : runtime
}.

Definition with_vars (f : closure -> closure) (s : state) : state :=
  {| vars := f (vars s); rt := rt s |}.

Definition with_rt (f : runtime -> runtime) (s : state) : state :=
  {| vars := vars s; rt := f (rt s) |}.

(** *** Assignments to the closure variables *)

Definition set_killTimeoutID (x : option nat) : state -> state :=
  with_vars (fun v =>
    {| killTimeoutID := x; pid := pid v; cp := cp v; stream := stream v;
       msgStream := msgStream v; msgQueue := msgQueue v;
       sockPath := sockPath v; src := src v |}).

Definition set_pid (x : option positive) : state -> state :=
  with_vars (fun v =>
    {| killTimeoutID := killTimeoutID v; pid := x; cp := cp v;
       stream := stream v; msgStream := msgStream v; msgQueue := msgQueue v;
       sockPath := sockPath v; src := src v |}).

Definition set_cp (x : option child_process) : state -> state :=
  with_vars (fun v =>
    {| killTimeoutID := killTimeoutID v; pid := pid v; cp := x;
       stream := stream v; msgStream := msgStream v; msgQueue := msgQueue v;
       sockPath := sockPath v; src := src v |}).

Definition set_stream (x : option nat) : state -> state :=
  with_vars (fun v =>
    {| killTimeoutID := killTimeoutID v; pid := pid v; cp := cp v;
       stream := x; msgStream := msgStream v; msgQueue := msgQueue v;
       sockPath := sockPath v; src := src v |}).

Definition set_msgStream (x : option nat) : state -> state :=
  with_vars (fun v =>
    {| killTimeoutID := killTimeoutID v; pid := pid v; cp := cp v;
       stream := stream v; msgStream := x; msgQueue := msgQueue v;
       sockPath := sockPath v; src := src v |}).

Definition set_msgQueue (x : list (list value)) : state -> state :=
  with_vars (fun v =>
    {| killTimeoutID := killTimeoutID v; pid := pid v; cp := cp v;
       stream := stream v; msgStream := msgStream v; msgQueue := x;
       sockPath := sockPath v; src := src v |}).

(** *** Calls into the runtime *)

Definition set_srv (x : server) : state -> state :=
  with_rt (fun r =>
    {| srv := x; destroyed := destroyed r; sent := sent r;
       timers := timers r; next_timer := next_timer r; ticks := ticks r;
       emitted := emitted r; kills := kills r; log := log r |}).

(** [stream.destroy()] *)
Definition destroy : state -> state :=
  with_rt (fun r =>
    {| srv := srv r; destroyed := true; sent := sent r;
       timers := timers r; next_timer := next_timer r; ticks := ticks r;
       emitted := emitted r; kills := kills r; log := log r |}).

(** [msgStream.send(m, fd)] *)
Definition send (m : list value) (f : value) : state -> state :=
  with_rt (fun r =>
    {| srv := srv r; destroyed := destroyed r; sent := sent r ++ [(m, f)];
       timers := timers r; next_timer := next_timer r; ticks := ticks r;
       emitted := emitted r; kills := kills r; log := log r |}).

Definition set_timers (x : list (nat * Z)) (n : nat) : state -> state :=
  with_rt (fun r =>
    {| srv := srv r; destroyed := destroyed r; sent := sent r;
       timers := x; next_timer := n; ticks := ticks r;
       emitted := emitted r; kills := kills r; log := log r |}).

Definition set_ticks (x : list task) : state -> state :=
  with_rt (fun r =>
    {| srv := srv r; destroyed := destroyed r; sent := sent r;
       timers := timers r; next_timer := next_timer r; ticks := x;
       emitted := emitted r; kills := kills r; log := log r |}).

(** [process.nextTick(f)] *)
Definition nextTick (t : task) (s : state) : state :=
  set_ticks (ticks (rt s) ++ [t]) s.

(** [self.emit(...)] *)
Definition emit (e : emission) : state -> state :=
  with_rt (fun r =>
    {| srv := srv r; destroyed := destroyed r; sent := sent r;
       timers := timers r; next_timer := next_timer r; ticks := ticks r;
       emitted := emitted r ++ [e]; kills := kills r; log := log r |}).

(** [cp.kill(sig)] *)
Definition kill (sig : string) : state -> state :=
  with_rt (fun r =>
    {| srv := srv r; destroyed := destroyed r; sent := sent r;
       timers := timers r; next_timer := next_timer r; ticks := ticks r;
       emitted := emitted r; kills := kills r ++ [sig]; log := log r |}).

(** [wwutil.debug(level, text)] *)
Definition debug (level : nat) (d : diag) : state -> state :=
  with_rt (fun r =>
    {| srv := srv r; destroyed := destroyed r; sent := sent r;
       timers := timers r; next_timer := next_timer r; ticks := ticks r;
       emitted := emitted r; kills := kills r; log := log r ++ [(level, d)] |}).

(** [setTimeout(f, delay)]: a fresh id, pending until it fires or is
    cleared. *)
Definition setTimeout (delay : Z) (s : state) : nat * state :=
  let id := next_timer (rt s) in
  (id, set_timers (timers (rt s) ++ [(id, delay)]) (S id) s).

(** [clearTimeout(id)] *)
Definition clearTimeout (id : nat) (s : state) : state :=
  set_timers (filter (fun t => negb (fst t =? id)%nat) (timers (rt s)))
             (next_timer (rt s)) s.

(** ** The master process: socket directory and worker counter *)

Record master : Type := {
  master_pid : N;           (* [process.pid] *)
  numWorkersCreated : N
}.

(** ['/tmp/node-webworker-' + process.pid] *)
Definition SOCK_DIR_PATH (g : master) : string :=
  "/tmp/node-webworker-" ++ decimal (master_pid g).

(** [path.join(dir, n)] for a directory without a trailing slash and a
    number: the two joined by one slash, nothing to normalise. *)
Definition path_join (dir : string) (n : N) : string :=
  dir ++ "/" ++ decimal n.

(** [n++] on a JavaScript number holding a non-negative integer: exact
    below 2^53, where the addition rounds back to 2^53. *)
Definition post_incr (n : N) : N :=
  if (n <? 2 ^ 53)%N then (n + 1)%N else n.

(** [new WorkerImpl(src)]: the initial values of the closure variables;
    the socket path consumes one value of the counter. *)
Definition new_WorkerImpl (script : string) (g : master) : state * master :=
  ({| vars := {| killTimeoutID := None; pid := None; cp := None;
                 stream := None; msgStream := None; msgQueue := [];
                 sockPath := path_join (SOCK_DIR_PATH g) (numWorkersCreated g);
                 src := script |};
      rt := {| srv := SrvIdle; destroyed := false; sent := [];
               timers := []; next_timer := 0; ticks := []; emitted := [];
               kills := []; log := [] |} |},
   {| master_pid := master_pid g;
      numWorkersCreated := post_incr (numWorkersCreated g) |}).

(** Constructing one controller per script, in order. *)
Fixpoint new_workers (scripts : list string) (g : master)
  : list state * master :=
  match scripts with
  | [] => ([], g)
  | sc :: rest =>
      let (w, g1) := new_WorkerImpl sc g in
      let (ws, g2) := new_workers rest g1 in
      (w :: ws, g2)
  end.

(** ** The callbacks of [WorkerImpl] *)

Definition is_none {A : Type} (o : option A) : bool :=
  match o with
  | None => true
  | Some _ => false
  end.

Definition is_some {A : Type} (o : option A) : bool := negb (is_none o).

Section Controller.

Variable U : wwutil.

(** The connection callback given to [net.createServer]. *)
Definition on_connection (s_id : nat) (s : state) : result state :=
  assert (is_none (stream (vars s))) ;;;
  assert (is_none (msgStream (vars s))) ;;;
  let s1 := set_stream (Some s_id) s in
  let s2 := set_msgStream (Some s_id) s1 in
  let s3 := fold_left
              (fun acc m => let (m', f) := pop m in send m' f acc)
              (msgQueue (vars s2)) s2 in
  Ok (set_msgQueue [] s3).

(** The bodies of the closures given to [process.nextTick]. The message
    closure assigns the undeclared variable [e] and reads it back before
    it returns, so that each run emits the object it has just built. *)
Definition run_task (t : task) : result emission :=
  match t with
  | TaskError msg =>
      p <- index msg 1 ;;
      Ok (EmError p)
  | TaskMessage msg f =>
      p <- index msg 1 ;;
      let e := {| data := p; fd := None |} in
      let e := if truthy f then {| data := data e; fd := Some f |} else e in
      Ok (EmMessage e)
  | TaskExit code signal => Ok (EmExit code signal)
  end.

Definition handleMessage (msg f : value) (s : state) : result state :=
  if negb (isValidMessage U msg) then
    Ok (debug 1 (DInvalid msg) s)
  else
    ty <- index msg 0 ;;
    p <- index msg 1 ;;
    let s := debug 3 (DReceived ty p) s in
    if is_tag ty (MSGTYPE_NOOP U) then Ok s
    else if is_tag ty (MSGTYPE_ERROR U) then Ok (nextTick (TaskError msg) s)
    else if is_tag ty (MSGTYPE_USER U) then Ok (nextTick (TaskMessage msg f) s)
    else Ok (debug 1 (DUnexpected msg) s).

Definition postMessageImpl (msgType : Z) (msg f : value) (s : state)
  : result state :=
  assert ((List.length (msgQueue (vars s)) =? 0)%nat
          || is_none (msgStream (vars s))) ;;;
  let m := [VNum msgType; msg] in
  if is_some (msgStream (vars s)) then
    Ok (send m f s)
  else
    let m := m ++ [f] in
    Ok (set_msgQueue (msgQueue (vars s) ++ [m]) s).

(** [self.start]: registers the ['listening'] callback and asks the
    server to listen on the socket path. *)
Definition start (s : state) : state := set_srv SrvBinding s.

(** The ['listening'] callback: spawns the child, whose process id [p]
    the operating system chooses. *)
Definition on_listening (p : positive) (s : state) : state :=
  let s := set_cp (Some {| cp_pid := Some p;
                          cp_args := [sockPath (vars s);
                                      ("file://" ++ src (vars s))%string] |}) s in
  let s := set_pid (match cp (vars s) with
                    | Some c => cp_pid c
                    | None => None
                    end) s in
  debug 1 (DSpawned (pid (vars s)) (src (vars s))) s.

(** The ['exit'] listener of the child process. *)
Definition on_exit (code signal : value) (s : state) : state :=
  let s := debug 1 (DExited (pid (vars s)) (src (vars s)) code signal) s in
  let s := match killTimeoutID (vars s) with
           | Some id => clearTimeout id s
           | None => s
           end in
  let s := if is_some (stream (vars s)) then destroy s
           else debug 1 (DNoHandshake (pid (vars s))) s in
  let s := set_srv SrvClosed s in
  nextTick (TaskExit code signal) s.

Definition postMessage (msg f : value) (s : state) : result state :=
  postMessageImpl (MSGTYPE_USER U) msg f s.

(** [cp.pid == pid] *)
Definition pid_eq (a b : option positive) : bool :=
  match a, b with
  | Some x, Some y => (x =? y)%positive
  | None, None => true
  | _, _ => false
  end.

(** The callback given to [setTimeout] by [terminate]. *)
Definition kill_timer (s : state) : result state :=
  let s := set_killTimeoutID None s in
  match cp (vars s) with
  | None => Throw TypeError
  | Some c =>
      if is_none (cp_pid c) then Ok s
      else
        let s := debug 1 (DKill (pid (vars s))) s in
        Ok (kill "SIGTERM" s)
  end.

(** [self.terminate]; [None] is an omitted (undefined) timeout. *)
Definition terminate (timeout : option Z) (s : state) : result state :=
  assert (is_some (pid (vars s))) ;;;
  match cp (vars s) with
  | None => Throw TypeError
  | Some c =>
      assert (pid_eq (cp_pid c) (pid (vars s)) || is_none (cp_pid c)) ;;;
      let timeout := match timeout with
                     | None => 5000%Z
                     | Some t => t
                     end in
      if is_none (cp_pid c) then Ok s
      else if is_some (killTimeoutID (vars s)) then Ok s
      else
        s <- postMessageImpl (MSGTYPE_CLOSE U) VUndef VUndef s ;;
        if (timeout >? 0)%Z then
          let (id, s) := setTimeout timeout s in
          Ok (set_killTimeoutID (Some id) s)
        else Ok s
  end.

(** ** The event loop around the callbacks

    What can happen to a controller: calls of its public functions, and
    the events of the runtime that invoke its callbacks. *)

Inductive event : Type :=
| Start
| Listening (p : positive)
| Connection (s_id : nat)
| Msg (msg f : value)
| PostMessage (msg f : value)
| Terminate (timeout : option Z)
| ChildExit (code signal : value)
| TimerFire (id : nat)
| Tick.

Definition running (s : state) : bool :=
  match cp (vars s) with
  | Some c => is_some (cp_pid c)
  | None => false
  end.

Definition pending (id : nat) (s : state) : bool :=
  existsb (fun t => (fst t =? id)%nat) (timers (rt s)).

(** When the runtime can deliver an event: [start] is called once; the
    server emits ['listening'] once, after [listen]; connections arrive
    while it listens; the channel emits ['msg'] once the listener is
    attached and until the stream is destroyed; a process exits once; a
    timeout fires while it is pending; a tick runs the closure at the
    head of the next-tick queue. *)
Definition enabled (ev : event) (s : state) : bool :=
  match ev with
  | Start => match srv (rt s) with SrvIdle => true | _ => false end
  | Listening _ => match srv (rt s) with SrvBinding => true | _ => false end
  | Connection _ => match srv (rt s) with SrvListening => true | _ => false end
  | Msg _ _ => is_some (msgStream (vars s)) && negb (destroyed (rt s))
  | PostMessage _ _ => true
  | Terminate _ => true
  | ChildExit _ _ => running s
  | TimerFire id => pending id s
  | Tick => negb (List.length (ticks (rt s)) =? 0)%nat
  end.

(** The process has exited: [cp.pid] reads as undefined from now on. *)
Definition process_exited (s : state) : state :=
  match cp (vars s) with
  | Some c => set_cp (Some {| cp_pid := None; cp_args := cp_args c |}) s
  | None => s
  end.

Definition step (ev : event) (s : state) : result state :=
  match ev with
  | Start => Ok (start s)
  | Listening p => Ok (on_listening p (set_srv SrvListening s))
  | Connection c => on_connection c s
  | Msg msg f => handleMessage msg f s
  | PostMessage msg f => postMessage msg f s
  | Terminate t => terminate t s
  | ChildExit code signal => Ok (on_exit code signal (process_exited s))
  | TimerFire id => kill_timer (clearTimeout id s)
  | Tick =>
      match ticks (rt s) with
      | [] => Ok s
      | t :: rest =>
          e <- run_task t ;;
          Ok (emit e (set_ticks rest s))
      end
  end.

(** A run of the event loop: [None] when an event is delivered that the
    runtime cannot deliver there, or when a callback throws (an uncaught
    exception ends the master process). *)
Fixpoint run (tr : list event) (s : state) : option state :=
  match tr with
  | [] => Some s
  | ev :: tr' =>
      if enabled ev s then
        match step ev s with
        | Ok s' => run tr' s'
        | Throw _ => None
        end
      else None
  end.

End Controller.

(** ** The child launcher, [libexec/worker.js]

    The state of the child process as far as its ['msg'] listener acts on
    it: whether [process.exit] was called, and what was given to
    [sys.debug]. The worker script is a parameter: the value it assigned
    to [onmessage], if any, as a function of the payload. *)

Module Child.

Record child : Type := {
  exited : option Z;            (* the code given to [process.exit] *)
  c_log : list diag
}.

Definition sys_debug (d : diag) (c : child) : child :=
  {| exited := exited c; c_log := c_log c ++ [d] |}.

Definition process_exit (code : Z) (c : child) : child :=
  {| exited := Some code; c_log := c_log c |}.

(** [workerCtx.close] *)
Definition close (c : child) : child := process_exit 0 c.

Section Listener.

Variable U : wwutil.
Variable onmessage : option (value -> child -> child).

(** The ['msg'] listener of the message stream to the master. *)
Definition on_msg (msg f : value) (c : child) : result child :=
  if negb (isValidMessage U msg) then
    Ok (sys_debug (DInvalid msg) c)
  else
    ty <- index msg 0 ;;
    if is_tag ty (MSGTYPE_NOOP U) then Ok c
    else if is_tag ty (MSGTYPE_USER U) then
      match onmessage with
      | Some h => p <- index msg 1 ;; Ok (h p c)
      | None => Ok c
      end
    else Ok (sys_debug (DUnexpected msg) c).

End Listener.

End Child.

(** ** A concrete utility module and master, for evaluation *)

Definition U0 : wwutil :=
  {| MSGTYPE_NOOP := 0; MSGTYPE_ERROR := 1; MSGTYPE_CLOSE := 2;
     MSGTYPE_USER := 100; MSGTYPE_HANDSHAKE := 3;
     isValidMessage := fun m => match m with
                               | VArr [_; _] => true
                               | _ => false
                               end |}.

Definition g0 : master := {| master_pid := 4242; numWorkersCreated := 0 |}.

Definition w0 : state := fst (new_WorkerImpl "worker.js" g0).

(** ** Observations on a state *)

Definition is_exit_task (t : task) : bool :=
  match t with
  | TaskExit _ _ => true
  | _ => false
  end.

Definition is_exit_emission (e : emission) : bool :=
  match e with
  | EmExit _ _ => true
  | _ => false
  end.

(** The exit events of a controller: those already emitted and those
    queued for a later tick. *)
Definition exits (s : state) : nat :=
  List.length (filter is_exit_task (ticks (rt s)))
  + List.length (filter is_exit_emission (emitted (rt s))).

Definition is_timer_fire (ev : event) : bool :=
  match ev with
  | TimerFire _ => true
  | _ => false
  end.

Definition is_connection (ev : event) : bool :=
  match ev with
  | Connection _ => true
  | _ => false
  end.

Definition is_listening (ev : event) : bool :=
  match ev with
  | Listening _ => true
  | _ => false
  end.

(** The queue and the channel exclude each other. *)
Definition queue_or_channel (s : state) : Prop :=
  msgQueue (vars s) = [] \/ msgStream (vars s) = None.

(** What holds of every state a controller reaches, by the phase of its
    child process: not spawned, running, exited. *)
Definition wf (s : state) : Prop :=
  queue_or_channel s /\
  stream (vars s) = msgStream (vars s) /\
  match cp (vars s) with
  | None =>
      pid (vars s) = None /\ killTimeoutID (vars s) = None /\
      timers (rt s) = [] /\ kills (rt s) = [] /\ exits s = 0 /\
      stream (vars s) = None /\
      (srv (rt s) = SrvIdle \/ srv (rt s) = SrvBinding)
  | Some c =>
      match cp_pid c with
      | Some q =>
          pid (vars s) = Some q /\ srv (rt s) = SrvListening /\
          exits s = 0 /\
          (forall t, In t (timers (rt s)) ->
                     killTimeoutID (vars s) = Some (fst t))
      | None =>
          pid (vars s) <> None /\ srv (rt s) = SrvClosed /\
          timers (rt s) = [] /\ exits s = 1
      end
  end.

(** ** Calls of [postMessage] and what they put on the queue and channel *)

Definition call : Type := (value * value)%type.

Definition posts (calls : list call) : list event :=
  map (fun c => PostMessage (fst c) (snd c)) calls.

(** The queue entry [[type, data, fd]] of a call made before the channel
    exists, and the arguments [([type, data], fd)] of [msgStream.send]. *)
Definition queued (U : wwutil) (c : call) : list value :=
  [VNum (MSGTYPE_USER U); fst c; snd c].

Definition framed (U : wwutil) (c : call) : list value * value :=
  ([VNum (MSGTYPE_USER U); fst c], snd c).

(** A controller whose child is spawned and not yet connected, and the
    same controller once the child has connected. *)
Definition w_spawned : state :=
  Eval vm_compute in
    match run U0 [Start; Listening 7] w0 with
    | Some s => s
    | None => w0
    end.

Definition w_connected : state :=
  Eval vm_compute in
    match run U0 [Connection 1] w_spawned with
    | Some s => s
    | None => w0
    end.

(** The spawned controller after one call of [postMessage]. *)
Definition w_queued : state :=
  Eval vm_compute in
    match run U0 [PostMessage (VStr "ping") VUndef] w_spawned with
    | Some s => s
    | None => w0
    end.

(** ** Classifying inbound envelopes *)

(** What [isValidMessage] is relied on for: a message it accepts is an
    array, so that reading its elements does not throw. *)
Definition valid_is_array (U : wwutil) : Prop :=
  forall m, isValidMessage U m = true -> exists l, m = VArr l.

(** A callback that neither emits an event nor queues one. *)
Definition no_event (s s' : state) : Prop :=
  ticks (rt s') = ticks (rt s) /\ emitted (rt s') = emitted (rt s).

(** A callback that emits nothing itself and queues the closure [t] at
    the end of the next-tick queue; when the turn of [t] comes, running
    it emits [e]. *)
Definition deferred (U : wwutil) (t : task) (e : emission) (s s' : state)
  : Prop :=
  emitted (rt s') = emitted (rt s) /\
  ticks (rt s') = ticks (rt s) ++ [t] /\
  forall s2 rest,
    ticks (rt s2) = t :: rest ->
    step U Tick s2 = Ok (emit e (set_ticks rest s2)).

(** A user message as the child sends it. *)
Definition greeting : value :=
  VArr [VNum 100; VObj [("greeting", VStr "hi")]].

(** The close request as [terminate] builds it. *)
Definition close_request (U : wwutil) : value :=
  VArr [VNum (MSGTYPE_CLOSE U); VUndef].

Definition child0 : Child.child :=
  {| Child.exited := None; Child.c_log := [] |}.

(** ** Termination *)

(** The child process was spawned and has exited. *)
Definition child_exited (s : state) : bool :=
  match cp (vars s) with
  | Some c => is_none (cp_pid c)
  | None => false
  end.

(** Events that are not a call of [terminate] with a positive or an
    omitted timeout. *)
Definition no_deadline (ev : event) : bool :=
  match ev with
  | Terminate (Some z) => (z <=? 0)%Z
  | Terminate None => false
  | _ => true
  end.

Definition terminates (ts : list (option Z)) : list event :=
  map Terminate ts.

(** A connected controller after [terminate(100)], and the same once the
    timer has fired with the child still running. *)
Definition w_terminating : state :=
  Eval vm_compute in
    match run U0 [Terminate (Some 100%Z)] w_connected with
    | Some s => s
    | None => w0
    end.

Definition w_fired : state :=
  Eval vm_compute in
    match run U0 [TimerFire 0] w_terminating with
    | Some s => s
    | None => w0
    end.

(** The socket paths of a list of controllers. *)
Definition sockPaths (ws : list state) : list string :=
  map (fun w => sockPath (vars w)) ws.

(** The terminating controller of above after its child has exited and
    the exit event has been delivered. *)
Definition w_exited : state :=
  Eval vm_compute in
    match run U0 [ChildExit (VNum 0) VNull; Tick; Terminate None]
              w_terminating with
    | Some s => s
    | None => w0
    end.

(** ** Outbound envelopes, over whole runs *)

(** Everything handed to the channel so far, followed by what the queue
    will hand to it when it is flushed. *)
Definition out (s : state) : list (list value * value) :=
  sent (rt s) ++ map pop (msgQueue (vars s)).

(** The calls of [postMessage] of a run, in order. *)
Definition posted (tr : list event) : list call :=
  flat_map (fun ev => match ev with
                      | PostMessage m f => [(m, f)]
                      | _ => []
                      end) tr.

Definition is_user_frame (U : wwutil) (e : list value * value) : bool :=
  match fst e with
  | t :: _ => is_tag t (MSGTYPE_USER U)
  | [] => false
  end.

(** The arguments of [msgStream.send] for the close request. *)
Definition close_frame (U : wwutil) : list value * value :=
  ([VNum (MSGTYPE_CLOSE U); VUndef], VUndef).

(** A frame of the master: a two-element array whose tag is USER, or the
    close request. *)
Definition master_frame (U : wwutil) (e : list value * value) : Prop :=
  (exists m, fst e = [VNum (MSGTYPE_USER U); m]) \/ e = close_frame U.

(** A run that mixes calls of [postMessage] with the spawn, a call of
    [terminate] and the connection, and the state it ends in. *)
Definition mixed_run : list event :=
  [Start; PostMessage (VStr "a") VUndef; Listening 7; Terminate None;
   PostMessage (VStr "b") (VNum 4); Connection 1;
   PostMessage (VStr "c") VUndef].

Definition w_mixed : state :=
  Eval vm_compute in
    match run U0 mixed_run w0 with
    | Some s => s
    | None => w0
    end.

(** ** Inbound events, over whole runs *)

(** A queued closure that reads the payload of an array. *)
Definition task_ok (t : task) : Prop :=
  match t with
  | TaskError m | TaskMessage m _ => exists l, m = VArr l
  | TaskExit _ _ => True
  end.

(** What running a queued closure will emit. *)
Definition task_emission (t : task) : list emission :=
  match run_task t with
  | Ok e => [e]
  | Throw _ => []
  end.

(** The events of a controller: those emitted, then those its queued
    closures will emit, in the order of the queue. *)
Definition events_of (s : state) : list emission :=
  emitted (rt s) ++ flat_map task_emission (ticks (rt s)).

(** The event an occurrence gives rise to: an accepted ERROR or USER
    envelope its "error" or "message" event, the exit of the child
    process the "exit" event, anything else none. *)
Definition received (U : wwutil) (ev : event) : list emission :=
  match ev with
  | Msg msg f =>
      if isValidMessage U msg then
        match index msg 0, index msg 1 with
        | Ok (VNum t), Ok p =>
            if (t =? MSGTYPE_ERROR U)%Z then [EmError p]
            else if (t =? MSGTYPE_USER U)%Z then
              [EmMessage {| data := p;
                            fd := if truthy f then Some f else None |}]
            else []
        | _, _ => []
        end
      else []
  | ChildExit code signal => [EmExit code signal]
  | _ => []
  end.

(** A session: two envelopes from the child, delivered, then its exit. *)
Definition session_run : list event :=
  [Start; Listening 7; Connection 1;
   Msg greeting VUndef; Msg (VArr [VNum 1; VStr "boom"]) VUndef;
   Tick; Tick; ChildExit (VNum 0) VNull; Tick].

Definition w_session : state :=
  Eval vm_compute in
    match run U0 session_run w0 with
    | Some s => s
    | None => w0
    end.

(** A child that exits before it has connected, and a message posted
    before and one after the exit. *)
Definition crash_run : list event :=
  [Start; PostMessage (VStr "a") VUndef; Listening 7;
   ChildExit (VNum 1) VNull; PostMessage (VStr "b") VUndef; Tick].

Definition w_crashed : state :=
  Eval vm_compute in
    match run U0 crash_run w0 with
    | Some s => s
    | None => w0
    end.

(** A forced termination: the timer fires, the child then exits. *)
Definition forced_run : list event :=
  [Start; Listening 7; Connection 1; Terminate (Some 100%Z); TimerFire 0;
   ChildExit VNull (VStr "SIGTERM"); Tick].

Definition w_forced : state :=
  Eval vm_compute in
    match run U0 forced_run w0 with
    | Some s => s
    | None => w0
    end.

(** ** The [Worker] facade

    The object handed to the application: the controller, the three
    hooks the application may assign, and the calls made to them. A hook
    is undefined or a function, named here by a number. *)

Record worker : Type := {
  impl : state;
  onerror : option nat;
  onmessage : option nat;
  onexit : option nat;
  hooked : list (nat * emission)   (* the calls [self.on...(...)] *)
}.

(** The hook an event is for. *)
Definition hook_for (h_error h_message h_exit : option nat) (e : emission)
  : option nat :=
  match e with
  | EmError _ => h_error
  | EmMessage _ => h_message
  | EmExit _ _ => h_exit
  end.

(** The call a listener of the facade makes for an event, if the hook is
    set at that moment. *)
Definition dispatch (h_error h_message h_exit : option nat) (e : emission)
  : list (nat * emission) :=
  match hook_for h_error h_message h_exit e with
  | Some h => [(h, e)]
  | None => []
  end.

(** The three listeners added by [Worker], run on an emitted event. *)
Definition listeners (w : worker) (e : emission) : worker :=
  {| impl := impl w; onerror := onerror w; onmessage := onmessage w;
     onexit := onexit w;
     hooked := hooked w ++ dispatch (onerror w) (onmessage w) (onexit w) e |}.

(** [new Worker(src)]: builds the controller, adds the listeners and
    calls [impl.start()]. *)
Definition new_Worker (script : string) (g : master) : worker * master :=
  let (i, g') := new_WorkerImpl script g in
  ({| impl := start i; onerror := None; onmessage := None; onexit := None;
      hooked := [] |}, g').

Inductive worker_event : Type :=
| Occur (ev : event)              (* a call through the facade, or the runtime *)
| SetOnError (h : option nat)
| SetOnMessage (h : option nat)
| SetOnExit (h : option nat).

Section Facade.

Variable U : wwutil.

(** A callback of the controller runs; the events it emits reach the
    listeners of the facade inside [emit], in order. *)
Definition worker_step (wev : worker_event) (w : worker) : result worker :=
  match wev with
  | Occur ev =>
      i <- step U ev (impl w) ;;
      let fresh := skipn (List.length (emitted (rt (impl w))))
                         (emitted (rt i)) in
      Ok (fold_left listeners fresh
            {| impl := i; onerror := onerror w; onmessage := onmessage w;
               onexit := onexit w; hooked := hooked w |})
  | SetOnError h =>
      Ok {| impl := impl w; onerror := h; onmessage := onmessage w;
            onexit := onexit w; hooked := hooked w |}
  | SetOnMessage h =>
      Ok {| impl := impl w; onerror := onerror w; onmessage := h;
            onexit := onexit w; hooked := hooked w |}
  | SetOnExit h =>
      Ok {| impl := impl w; onerror := onerror w; onmessage := onmessage w;
            onexit := h; hooked := hooked w |}
  end.

Definition worker_enabled (wev : worker_event) (w : worker) : bool :=
  match wev with
  | Occur ev => enabled ev (impl w)
  | _ => true
  end.

Fixpoint worker_run (tr : list worker_event) (w : worker) : option worker :=
  match tr with
  | [] => Some w
  | wev :: tr' =>
      if worker_enabled wev w then
        match worker_step wev w with
        | Ok w' => worker_run tr' w'
        | Throw _ => None
        end
      else None
  end.

End Facade.

(** A worker whose application sets [onmessage] and [onexit] but not
    [onerror], over a session with one message, one error and the exit. *)
Definition facade_run : list worker_event :=
  [SetOnError None; SetOnMessage (Some 1); SetOnExit (Some 2)]
  ++ map Occur [Listening 7; Connection 1;
                Msg greeting VUndef; Msg (VArr [VNum 1; VStr "boom"]) VUndef;
                Tick; Tick; ChildExit (VNum 0) VNull; Tick].

Definition worker0 : worker := fst (new_Worker "worker.js" g0).

Definition worker_done : worker :=
  Eval vm_compute in
    match worker_run U0 facade_run worker0 with
    | Some w => w
    | None => worker0
    end.

(** ** The rest of the launcher, [libexec/worker.js]

    The launcher process up to the start of the worker script: what it
    wrote to standard error, the socket it connects to, the script it
    loaded, and the bookkeeping of [importScripts]. [WorkerLocation] (of
    the utility module) and the reading and compiling of the script file
    are parameters. *)

Module Launcher.

(** The envelope sent by the ['connect'] listener. *)
Definition handshake (U : wwutil) (p : positive) : value :=
  VArr [VNum (MSGTYPE_HANDSHAKE U); VNum (Zpos p)].

(** The envelope sent by [workerCtx.postMessage]. *)
Definition postMessage (U : wwutil) (msg : value) : value :=
  VArr [VNum (MSGTYPE_USER U); msg].

Record location : Type := {
  protocol : string;
  hostname : string;
  port : string;
  pathname : string;
  search : string;
  hash : string;
  href : string
}.

(** How a function of the launcher stops short: [process.exit(code)], an
    exception at the top of the file, which nobody catches, or an
    exception thrown to the caller, the worker script. *)
Inductive halt : Type :=
| Exit (code : Z)
| Uncaught (error : string)
| Thrown (error : string).

Record proc : Type := {
  stderr : list string;                 (* the calls [writeError(x)] *)
  connecting : option string;           (* [net.createConnection(sockPath)] *)
  script : option string;               (* [scriptObj], by the name it was compiled under *)
  started : bool;                       (* [scriptObj.runInNewContext] was called *)
  scriptData : list (option value);     (* [None] is a hole of the array *)
  scriptFilenames : list (option string)
}.

Inductive outcome : Type :=
| Returned (p : proc)
| Halted (p : proc) (h : halt).

Definition writeError (x : string) (p : proc) : proc :=
  {| stderr := stderr p ++ [x]; connecting := connecting p;
     script := script p; started := started p;
     scriptData := scriptData p; scriptFilenames := scriptFilenames p |}.

(** [a[i] = v] on an array: a write past the end leaves holes. *)
Fixpoint array_set {A : Type} (i : nat) (v : A) (a : list (option A))
  : list (option A) :=
  match i, a with
  | O, [] => [Some v]
  | O, _ :: rest => Some v :: rest
  | S j, [] => None :: array_set j v []
  | S j, x :: rest => x :: array_set j v rest
  end.

Section Process.

(** [process.env.NODE_DEBUG]: unset, or what [parseInt] makes of it
    ([None] for NaN). *)
Variable NODE_DEBUG : option (option Z).
Variable WorkerLocation : string -> location.
(** Reading the file at a path and compiling it under a name: the
    script object, or the exception either of the two throws. *)
Variable load : string -> string -> string + string.

Definition debugLevel : option Z :=
  match NODE_DEBUG with
  | Some v => v
  | None => Some (-1)%Z
  end.

Definition debug (l : Z) (x : string) (p : proc) : proc :=
  match NODE_DEBUG with
  | Some _ =>
      match debugLevel with
      | Some d => if (l >=? d)%Z then writeError x p else p
      | None => p
      end
  | None => p
  end.

(** The top of the file, up to the start of the worker script. *)
Definition launch (argv : list string) (p : proc) : outcome :=
  if (List.length argv <? 4)%nat then
    Halted p (Uncaught "Error: usage: node worker.js <sock> <script>")
  else
    let sockPath := nth 2 argv "" in
    let scriptLoc := WorkerLocation (nth 3 argv "") in
    if (protocol scriptLoc =? "file")%string then
      match load (pathname scriptLoc) (href scriptLoc) with
      | inr error => Halted p (Uncaught error)
      | inl scriptObj =>
          Returned {| stderr := stderr p; connecting := Some sockPath;
                      script := Some scriptObj; started := true;
                      scriptData := scriptData p;
                      scriptFilenames := scriptFilenames p |}
      end
    else
      let p := writeError ("Cannot load script from unknown protocol '"
                           ++ protocol scriptLoc)%string p in
      Halted p (Exit 1).

(** [importSingleScript(l, i)]. The file does not bind [http], so that
    the first statement of the ['http'] case throws. *)
Definition importSingleScript (l : location) (i : nat) (p : proc) : outcome :=
  let p := {| stderr := stderr p; connecting := connecting p;
              script := script p; started := started p;
              scriptData := array_set i VUndef (scriptData p);
              scriptFilenames := scriptFilenames p |} in
  let p := {| stderr := stderr p; connecting := connecting p;
              script := script p; started := started p;
              scriptData := scriptData p;
              scriptFilenames := array_set i (href l) (scriptFilenames p) |} in
  let p := debug 1 ("importScript(" ++ href l ++ ", "
                    ++ decimal (N.of_nat i) ++ ")")%string p in
  if (protocol l =? "http")%string then
    Halted p (Thrown "ReferenceError: http is not defined")
  else
    let p := writeError ("Unable to load script from " ++ href l)%string p in
    Halted p (Exit 1).

(** The loop of [importScripts] from index [i] on. *)
Fixpoint import_from (i : nat) (args : list string) (p : proc) : outcome :=
  match args with
  | [] => Returned p
  | a :: rest =>
      match importSingleScript (WorkerLocation a) i p with
      | Returned p' => import_from (S i) rest p'
      | Halted p' h => Halted p' h
      end
  end.

(** [workerCtx.importScripts(...)]: fresh arrays, then one call of
    [importSingleScript] per argument. *)
Definition importScripts (args : list string) (p : proc) : outcome :=
  import_from 0 args
    {| stderr := stderr p; connecting := connecting p; script := script p;
       started := started p; scriptData := []; scriptFilenames := [] |}.

End Process.

End Launcher.

(** What [debug(l, x)] writes to standard error. *)
Definition debug_output (NODE_DEBUG : option (option Z)) (l : Z) (x : string)
  : list string :=
  match NODE_DEBUG with
  | Some (Some d) => if (l >=? d)%Z then [x] else []
  | _ => []
  end.

(** A launcher process at its start, and what [WorkerLocation] makes of
    the locations used below. *)
Definition proc0 : Launcher.proc :=
  {| Launcher.stderr := []; Launcher.connecting := None;
     Launcher.script := None; Launcher.started := false;
     Launcher.scriptData := []; Launcher.scriptFilenames := [] |}.

Definition location0 (url : string) : Launcher.location :=
  {| Launcher.protocol := if prefix "http://" url then "http" else "file";
     Launcher.hostname := ""; Launcher.port := "";
     Launcher.pathname := url; Launcher.search := ""; Launcher.hash := "";
     Launcher.href := url |}.

(** The arguments of the child process: the interpreter, the launcher
    script, and what the controller passes to [spawn]. *)
Definition child_argv (node launcher : string) (c : child_process)
  : list string :=
  node :: launcher :: cp_args c.

(** The calls the application can still make, and the ticks. *)
Definition from_application (ev : event) : bool :=
  match ev with
  | PostMessage _ _ | Terminate _ | Tick => true
  | _ => false
  end.

(** Two envelopes received and not yet delivered. *)
Definition w_backlog : state :=
  Eval vm_compute in
    match run U0 [Msg greeting VUndef; Msg (VArr [VNum 1; VStr "boom"]) VUndef]
              w_connected with
    | Some s => s
    | None => w0
    end.

(** A connected controller after [terminate(0)]. *)
Definition w_waiting : state :=
  Eval vm_compute in
    match run U0 [Terminate (Some 0%Z)] w_connected with
    | Some s => s
    | None => w0
    end.

(** The calls a controller can get before the connection: before
    [start], between [start] and the ['listening'] callback, and after
    it. *)
Definition before_connection (pre0 pre1 pre2 : list call) (p : positive)
  : list event :=
  posts pre0 ++ Start :: posts pre1 ++ Listening p :: posts pre2.

(** A run without connection, with calls at each of these moments and a
    call of [terminate] in between, and the state it ends in. *)
Definition early_run : list event :=
  [PostMessage (VStr "a") VUndef; Start; PostMessage (VStr "b") (VNum 5);
   Listening 7; Terminate None; PostMessage (VStr "c") VUndef].

Definition w_early : state :=
  Eval vm_compute in
    match run U0 early_run w0 with
    | Some s => s
    | None => w0
    end.

(** ** General facts on runs *)

Section Runs.

Variable U : wwutil.

Lemma run_app (a b : list event) (s : state) :
  run U (a ++ b) s =
  match run U a s with
  | Some s1 => run U b s1
  | None => None
  end.
Proof.
  revert s. induction a as [|ev a IH]; intros s; simpl; [reflexivity|].
  destruct (enabled ev s); [|reflexivity].
  destruct (step U ev s); [apply IH|reflexivity].
Qed.

Lemma run_cons_inv (ev : event) (tr : list event) (s s' : state) :
  run U (ev :: tr) s = Some s' ->
  exists s1, enabled ev s = true /\ step U ev s = Ok s1 /\ run U tr s1 = Some s'.
Proof.
  simpl. destruct (enabled ev s); [|discriminate].
  destruct (step U ev s) as [s1|]; [|discriminate].
  intros H. exists s1. auto.
Qed.

(** A property kept by every delivered event holds along every run. *)
Lemma run_preserves (P : state -> Prop) (G : event -> Prop) :
  (forall ev s s', G ev -> P s -> enabled ev s = true ->
                   step U ev s = Ok s' -> P s') ->
  forall tr s s', Forall G tr -> P s -> run U tr s = Some s' -> P s'.
Proof.
  intros Hstep tr. induction tr as [|ev tr IH]; intros s s' HG HP Hrun.
  - simpl in Hrun. injection Hrun as <-. exact HP.
  - apply run_cons_inv in Hrun as (s1 & He & Hs & Hr).
    inversion HG as [|? ? Hev Htr]; subst.
    apply (IH s1 s' Htr); [|exact Hr].
    exact (Hstep ev s s1 Hev HP He Hs).
Qed.

Lemma fold_send (q : list (list value)) (s : state) :
  fold_left (fun acc m => let (m', f) := pop m in send m' f acc) q s =
  {| vars := vars s;
     rt := {| srv := srv (rt s); destroyed := destroyed (rt s);
              sent := sent (rt s) ++ map pop q;
              timers := timers (rt s); next_timer := next_timer (rt s);
              ticks := ticks (rt s); emitted := emitted (rt s);
              kills := kills (rt s); log := log (rt s) |} |}.
Proof.
  revert s. induction q as [|m q IH]; intros [v r]; simpl.
  - rewrite app_nil_r. destruct r; reflexivity.
  - rewrite IH. simpl. rewrite <- app_assoc. reflexivity.
Qed.

Lemma run_task_exit (t : task) (e : emission) :
  run_task t = Ok e -> is_exit_emission e = is_exit_task t.
Proof.
  destruct t as [msg|msg f|c sg]; simpl.
  - destruct (index msg 1); simpl; [|discriminate].
    intros H; injection H as <-. reflexivity.
  - destruct (index msg 1); simpl; [|discriminate].
    intros H; injection H as <-. reflexivity.
  - intros H; injection H as <-. reflexivity.
Qed.

End Runs.

(** ** The invariant of the controller *)

Ltac break_state s :=
  destruct s as [[k p c st ms q sp sr] [sv de se ti nt tk em ks lg]].

Ltac break_cp c :=
  let q := fresh "q" in
  destruct c as [[[q|] ?]|]; cbn [cp_pid] in *.

Section Invariant.

Variable U : wwutil.

Lemma filter_same_id (id : nat) (k : option nat) (ti : list (nat * Z)) :
  k = Some id ->
  (forall t, In t ti -> k = Some (fst t)) ->
  filter (fun t => negb (fst t =? id)%nat) ti = [].
Proof.
  intros -> H. induction ti as [|t ti IH]; simpl; [reflexivity|].
  assert (fst t = id) as ->.
  { specialize (H t (or_introl eq_refl)). congruence. }
  rewrite Nat.eqb_refl. simpl. apply IH.
  intros t' Ht'. apply H. right. exact Ht'.
Qed.

Lemma pending_in (id : nat) (ti : list (nat * Z)) :
  existsb (fun t => (fst t =? id)%nat) ti = true ->
  exists t, In t ti /\ fst t = id.
Proof.
  rewrite existsb_exists. intros (t & Hin & Heq).
  exists t. split; [exact Hin|]. apply Nat.eqb_eq. exact Heq.
Qed.

Lemma exits_push_task (t : task) (tk : list task) :
  List.length (filter is_exit_task (tk ++ [t])) =
  List.length (filter is_exit_task tk) + (if is_exit_task t then 1 else 0).
Proof.
  rewrite filter_app, length_app. simpl.
  destruct (is_exit_task t); reflexivity.
Qed.

Lemma exits_push_emission (e : emission) (em : list emission) :
  List.length (filter is_exit_emission (em ++ [e])) =
  List.length (filter is_exit_emission em)
  + (if is_exit_emission e then 1 else 0).
Proof.
  rewrite filter_app, length_app. simpl.
  destruct (is_exit_emission e); reflexivity.
Qed.

Lemma step_wf (ev : event) (s s' : state) :
  wf s -> enabled ev s = true -> step U ev s = Ok s' -> wf s'.
Proof.
  break_state s. unfold wf, queue_or_channel, exits.
  destruct ev; cbn; intros (HQ & HS & HP) Hen Hst.
  - (* Start *)
    injection Hst as <-. cbn. destruct sv; try discriminate.
    break_cp c; try (destruct HP as (_ & HP & _); discriminate).
    intuition.
  - (* Listening *)
    injection Hst as <-. cbn. destruct sv; try discriminate.
    break_cp c; try (destruct HP as (_ & HP & _); discriminate).
    destruct HP as (_ & _ & -> & _ & He & _).
    repeat split; auto. intros t [].
  - (* Connection *)
    destruct sv; try discriminate.
    unfold on_connection in Hst; cbn in Hst.
    destruct st; [discriminate|]. destruct ms; [discriminate|].
    cbn in Hst. rewrite fold_send in Hst. injection Hst as <-. cbn.
    break_cp c; intuition discriminate.
  - (* Msg *)
    unfold handleMessage in Hst.
    destruct (isValidMessage U msg); cbn in Hst.
    + destruct (index msg 0) as [ty|]; [|discriminate]. cbn in Hst.
      destruct (index msg 1) as [pl|]; [|discriminate]. cbn in Hst.
      destruct (is_tag ty (MSGTYPE_NOOP U));
        [|destruct (is_tag ty (MSGTYPE_ERROR U));
          [|destruct (is_tag ty (MSGTYPE_USER U))]];
        injection Hst as <-; cbn; rewrite ?exits_push_task; cbn;
        rewrite ?Nat.add_0_r; auto.
    + injection Hst as <-. cbn. auto.
  - (* PostMessage *)
    unfold postMessage, postMessageImpl in Hst. cbn in Hst.
    destruct ms as [m|]; cbn in Hst.
    + destruct q; [|discriminate]. cbn in Hst. injection Hst as <-. cbn. auto.
    + rewrite orb_true_r in Hst. cbn in Hst. injection Hst as <-. cbn. auto.
  - (* Terminate *)
    unfold terminate in Hst. cbn in Hst.
    destruct p as [p|]; [|discriminate]. cbn in Hst.
    break_cp c; try discriminate.
    + destruct HP as (Hp & Hsv & He & Ht). injection Hp as <-.
      unfold pid_eq in Hst. rewrite Pos.eqb_refl in Hst. cbn in Hst.
      destruct k as [id|]; cbn in Hst.
      * injection Hst as <-. cbn. repeat split; auto.
      * unfold postMessageImpl in Hst. cbn in Hst.
        assert (Hti : ti = []).
        { destruct ti as [|t ti]; [reflexivity|].
          specialize (Ht t (or_introl eq_refl)). discriminate. }
        subst ti.
        destruct ms as [m|]; cbn in Hst.
        -- destruct q; [|discriminate]. cbn in Hst.
           destruct (match timeout with Some t => t | None => 5000%Z end >? 0)%Z;
             injection Hst as <-; cbn; repeat split; auto;
             intros t [<-|[]]; reflexivity.
        -- rewrite orb_true_r in Hst. cbn in Hst.
           destruct (match timeout with Some t => t | None => 5000%Z end >? 0)%Z;
             injection Hst as <-; cbn; repeat split; auto;
             intros t [<-|[]]; reflexivity.
    + cbn in Hst. injection Hst as <-. cbn. auto.
  - (* ChildExit *)
    unfold running in Hen. cbn in Hen.
    break_cp c; try discriminate.
    destruct HP as (Hp & Hsv & He & Ht). subst p sv.
    injection Hst as <-.
    assert (Hti : match k with
                  | Some id => filter (fun t => negb (fst t =? id)%nat) ti
                  | None => ti
                  end = []).
    { destruct k as [id|].
      - eapply filter_same_id; [reflexivity|exact Ht].
      - destruct ti as [|t ti]; [reflexivity|].
        specialize (Ht t (or_introl eq_refl)). discriminate. }
    unfold on_exit, process_exited. cbn.
    destruct k as [id|]; cbn; destruct st; cbn; rewrite ?Hti;
      rewrite exits_push_task; cbn; repeat split; auto; try congruence; lia.
  - (* TimerFire *)
    apply pending_in in Hen as (t0 & Hin & Hid). cbn in Hin.
    unfold kill_timer in Hst. cbn in Hst.
    break_cp c; try discriminate;
      try (destruct HP as (_ & _ & -> & _); destruct Hin).
    destruct HP as (Hp & Hsv & He & Ht).
    assert (Hk : k = Some id).
    { rewrite <- Hid. apply Ht. exact Hin. }
    cbn in Hst. injection Hst as <-. cbn.
    rewrite (filter_same_id id k ti Hk Ht). repeat split; auto.
    intros t [].
  - (* Tick *)
    destruct tk as [|t rest]; [discriminate|].
    destruct (run_task t) as [e|] eqn:Hrt; [|discriminate].
    cbn in Hst. injection Hst as <-. cbn.
    apply run_task_exit in Hrt.
    assert (Hex : List.length (filter is_exit_task rest)
                  + List.length (filter is_exit_emission (em ++ [e]))
                  = List.length (filter is_exit_task (t :: rest))
                    + List.length (filter is_exit_emission em)).
    { rewrite exits_push_emission, Hrt. cbn.
      destruct (is_exit_task t); cbn; lia. }
    rewrite Hex. auto.
Qed.

Lemma new_WorkerImpl_wf (script : string) (g : master) :
  wf (fst (new_WorkerImpl script g)).
Proof.
  unfold wf, queue_or_channel, exits. cbn. intuition.
Qed.

(** Every state a fresh controller reaches is well formed. *)
Lemma run_wf (tr : list event) (s s' : state) :
  wf s -> run U tr s = Some s' -> wf s'.
Proof.
  intros Hwf Hrun.
  apply (run_preserves U wf (fun _ => True)
           (fun ev a b _ Ha He Hs => step_wf ev a b Ha He Hs)
           tr s s'); auto.
  apply Forall_forall. auto.
Qed.

End Invariant.

(** ** Queueing before the channel exists, flushing when it does *)

Section Queue.

Variable U : wwutil.

Lemma posts_queued (pre : list call) (s : state) :
  msgStream (vars s) = None ->
  exists s1,
    run U (posts pre) s = Some s1 /\
    msgQueue (vars s1) = msgQueue (vars s) ++ map (queued U) pre /\
    sent (rt s1) = sent (rt s) /\
    stream (vars s1) = stream (vars s) /\
    msgStream (vars s1) = None /\
    srv (rt s1) = srv (rt s).
Proof.
  revert s. induction pre as [|[m f] pre IH]; intros s Hms.
  - exists s. cbn. rewrite app_nil_r. repeat split; auto.
  - cbn [posts map run enabled step fst snd].
    unfold postMessage, postMessageImpl. rewrite Hms. cbn.
    rewrite orb_true_r. cbn.
    match goal with |- context [run U _ ?s0] =>
      destruct (IH s0) as (s1 & Hr & Hq & Hs & Hst & Hm & Hsv)
    end.
    { destruct s as [[] []]; cbn in *. exact Hms. }
    exists s1. split; [exact Hr|].
    destruct s as [[] []]; cbn in *.
    rewrite Hq, <- app_assoc. auto.
Qed.

Lemma posts_framed (post : list call) (s : state) :
  msgStream (vars s) <> None ->
  msgQueue (vars s) = [] ->
  exists s1,
    run U (posts post) s = Some s1 /\
    sent (rt s1) = sent (rt s) ++ map (framed U) post /\
    msgQueue (vars s1) = [].
Proof.
  revert s. induction post as [|[m f] post IH]; intros s Hms Hq.
  - exists s. cbn. rewrite app_nil_r. repeat split; auto.
  - cbn [posts map run enabled step fst snd].
    unfold postMessage, postMessageImpl. rewrite Hq.
    destruct (msgStream (vars s)) as [x|] eqn:Hx; [|congruence]. cbn.
    match goal with |- context [run U _ ?s0] =>
      destruct (IH s0) as (s1 & Hr & Hs & Hq1)
    end.
    { destruct s as [[] []]; cbn in *. congruence. }
    { destruct s as [[] []]; cbn in *. exact Hq. }
    exists s1. split; [exact Hr|].
    destruct s as [[] []]; cbn in *.
    rewrite Hs, <- app_assoc. auto.
Qed.

Lemma pop_queued (c : call) : pop (queued U c) = framed U c.
Proof. reflexivity. Qed.

(** From a state without channel whose server listens: calls, then the
    connection, then further calls. *)
Lemma flush_unconnected
  (pre post : list call) (c : nat) (s : state) :
  stream (vars s) = None ->
  msgStream (vars s) = None ->
  srv (rt s) = SrvListening ->
  exists s1 s2 s3,
    run U (posts pre) s = Some s1 /\
    msgQueue (vars s1) = msgQueue (vars s) ++ map (queued U) pre /\
    sent (rt s1) = sent (rt s) /\
    run U (posts pre ++ [Connection c]) s = Some s2 /\
    sent (rt s2) =
      sent (rt s) ++ map pop (msgQueue (vars s)) ++ map (framed U) pre /\
    msgQueue (vars s2) = [] /\
    run U (posts pre ++ Connection c :: posts post) s = Some s3 /\
    sent (rt s3) = sent (rt s2) ++ map (framed U) post /\
    msgQueue (vars s3) = [].
Proof.
  intros Hst Hms Hsv.
  destruct (posts_queued pre s Hms) as (s1 & Hr1 & Hq1 & Hs1 & Hst1 & Hms1 & Hsv1).
  assert (Hconn : exists s2,
             step U (Connection c) s1 = Ok s2 /\
             enabled (Connection c) s1 = true /\
             sent (rt s2) = sent (rt s1) ++ map pop (msgQueue (vars s1)) /\
             msgQueue (vars s2) = [] /\ msgStream (vars s2) = Some c).
  { cbn. unfold on_connection. rewrite Hst1, Hst, Hms1, Hsv1, Hsv. cbn.
    rewrite fold_send. eexists. split; [reflexivity|]. cbn. auto. }
  destruct Hconn as (s2 & Hstep & Hen & Hs2 & Hq2 & Hms2).
  destruct (posts_framed post s2) as (s3 & Hr3 & Hs3 & Hq3);
    [congruence|exact Hq2|].
  exists s1, s2, s3. repeat split; auto.
  - rewrite run_app, Hr1. cbn [run]. rewrite Hen, Hstep. reflexivity.
  - rewrite Hs2, Hs1, Hq1, map_app, map_map.
    rewrite (map_ext _ _ pop_queued). reflexivity.
  - rewrite run_app, Hr1. cbn [run]. rewrite Hen, Hstep. exact Hr3.
Qed.

End Queue.

(** ** The queue and the channel exclude each other *)

Section Exclusion.

Variable U : wwutil.

Lemma step_queue_or_channel (ev : event) (s s' : state) :
  queue_or_channel s -> step U ev s = Ok s' -> queue_or_channel s'.
Proof.
  break_state s. unfold queue_or_channel.
  destruct ev; cbn; intros HQ Hst.
  - injection Hst as <-. exact HQ.
  - injection Hst as <-. exact HQ.
  - unfold on_connection in Hst. cbn in Hst.
    destruct st; [discriminate|]. destruct ms; [discriminate|].
    cbn in Hst. rewrite fold_send in Hst. injection Hst as <-. cbn. auto.
  - unfold handleMessage in Hst.
    destruct (isValidMessage U msg); cbn in Hst.
    + destruct (index msg 0) as [ty|]; [|discriminate]. cbn in Hst.
      destruct (index msg 1) as [pl|]; [|discriminate]. cbn in Hst.
      destruct (is_tag ty (MSGTYPE_NOOP U));
        [|destruct (is_tag ty (MSGTYPE_ERROR U));
          [|destruct (is_tag ty (MSGTYPE_USER U))]];
        injection Hst as <-; exact HQ.
    + injection Hst as <-. exact HQ.
  - unfold postMessage, postMessageImpl in Hst. cbn in Hst.
    destruct ms as [m|]; cbn in Hst.
    + destruct q; [|discriminate]. injection Hst as <-. cbn. auto.
    + rewrite orb_true_r in Hst. injection Hst as <-. cbn. auto.
  - unfold terminate in Hst. cbn in Hst.
    destruct p as [p|]; [|discriminate]. cbn in Hst.
    destruct c as [c|]; [|discriminate].
    destruct (pid_eq (cp_pid c) (Some p) || is_none (cp_pid c));
      [|discriminate]. cbn in Hst.
    destruct (is_none (cp_pid c)); [injection Hst as <-; exact HQ|].
    destruct k as [id|]; cbn in Hst; [injection Hst as <-; exact HQ|].
    unfold postMessageImpl in Hst. cbn in Hst.
    destruct ms as [m|]; cbn in Hst.
    + destruct q; [|discriminate]. cbn in Hst.
      destruct (match timeout with Some t => t | None => 5000%Z end >? 0)%Z;
        injection Hst as <-; cbn; auto.
    + rewrite orb_true_r in Hst. cbn in Hst.
      destruct (match timeout with Some t => t | None => 5000%Z end >? 0)%Z;
        injection Hst as <-; cbn; auto.
  - injection Hst as <-. unfold on_exit, process_exited. cbn.
    destruct c; destruct k; destruct st; cbn; exact HQ.
  - unfold kill_timer in Hst. cbn in Hst.
    destruct c as [c|]; [|discriminate].
    destruct (is_none (cp_pid c)); injection Hst as <-; exact HQ.
  - destruct tk as [|t rest]; [injection Hst as <-; exact HQ|].
    destruct (run_task t); [|discriminate].
    injection Hst as <-. exact HQ.
Qed.

(** C2, as amended. In every state a controller reaches, a non-empty
    outbound queue implies that the channel is undefined, and whatever
    happens next (postMessage, the connection being accepted, terminate
    or any other callback) keeps it so. *)
Theorem C2_queue_excludes_channel
  (script : string) (g : master) (tr : list event) (s : state) :
  run U tr (fst (new_WorkerImpl script g)) = Some s ->
  (msgQueue (vars s) <> [] -> msgStream (vars s) = None) /\
  (forall ev s', step U ev s = Ok s' ->
                 msgQueue (vars s') <> [] -> msgStream (vars s') = None).
Proof.
  intros Hrun.
  assert (HQ : queue_or_channel s).
  { apply (run_preserves U queue_or_channel (fun _ => True)
             (fun ev a b _ Ha _ Hs => step_queue_or_channel ev a b Ha Hs)
             tr (fst (new_WorkerImpl script g)) s); auto.
    - apply Forall_forall. auto.
    - left. reflexivity. }
  split.
  - destruct HQ as [HQ|HQ]; [congruence|auto].
  - intros ev s' Hst.
    destruct (step_queue_or_channel ev s s' HQ Hst) as [H|H];
      [congruence|auto].
Qed.

End Exclusion.

Lemma C2_queue_excludes_channel_witness :
  run U0 [Start; Listening 7; PostMessage (VStr "ping") VUndef]
      (fst (new_WorkerImpl "worker.js" g0)) = Some w_queued /\
  msgStream (vars w_queued) = None.
Proof.
  split; [reflexivity|].
  apply (C2_queue_excludes_channel U0 "worker.js" g0
           [Start; Listening 7; PostMessage (VStr "ping") VUndef]);
    [reflexivity|discriminate].
Defined.

(** C2, as stated, fails for the converse direction: a fresh controller
    has no channel and an empty queue. *)
Lemma C2_converse_fails :
  ~ (msgStream (vars w0) = None -> msgQueue (vars w0) <> []).
Proof.
  intros H. apply H; reflexivity.
Qed.

(** ** Inbound messages *)

Lemma is_tag_true (v : value) (c : Z) : is_tag v c = true -> v = VNum c.
Proof.
  destruct v; simpl; try discriminate.
  intros H. apply Z.eqb_eq in H. congruence.
Qed.

Lemma is_tag_other (v : value) (c d : Z) :
  is_tag v c = true -> c <> d -> is_tag v d = false.
Proof.
  intros H Hne. apply is_tag_true in H. subst v. simpl.
  apply Z.eqb_neq. exact Hne.
Qed.

Lemma distinct_tags_U0 : distinct_tags U0.
Proof.
  unfold distinct_tags. cbn.
  repeat (constructor; [cbn; intuition discriminate|]). constructor.
Qed.

Lemma valid_is_array_U0 : valid_is_array U0.
Proof.
  intros m. destruct m; cbn; try discriminate. eauto.
Qed.

Ltac absurd_bool :=
  match goal with
  | H1 : ?x = true, H2 : ?x = false |- _ => rewrite H1 in H2; discriminate H2
  end.

Section Inbound.

Variable U : wwutil.

Lemma distinct_noop_error : distinct_tags U -> MSGTYPE_ERROR U <> MSGTYPE_NOOP U.
Proof.
  unfold distinct_tags. intros H. inversion H as [|? ? Hn _]; subst.
  intros E. apply Hn. rewrite <- E. cbn. auto.
Qed.

Lemma distinct_noop_user : distinct_tags U -> MSGTYPE_USER U <> MSGTYPE_NOOP U.
Proof.
  unfold distinct_tags. intros H. inversion H as [|? ? Hn _]; subst.
  intros E. apply Hn. rewrite <- E. cbn. auto.
Qed.

Lemma distinct_error_user : distinct_tags U -> MSGTYPE_USER U <> MSGTYPE_ERROR U.
Proof.
  unfold distinct_tags. intros H. inversion H as [|? ? _ H1]; subst.
  inversion H1 as [|? ? Hn _]; subst.
  intros E. apply Hn. rewrite <- E. cbn. auto.
Qed.

Lemma distinct_close_user : distinct_tags U -> MSGTYPE_CLOSE U <> MSGTYPE_USER U.
Proof.
  unfold distinct_tags. intros H. inversion H as [|? ? _ H1]; subst.
  inversion H1 as [|? ? _ H2]; subst. inversion H2 as [|? ? Hn _]; subst.
  intros E. apply Hn. rewrite E. cbn. auto.
Qed.

Lemma tick_runs (t : task) (e : emission) (s2 : state) (rest : list task) :
  run_task t = Ok e ->
  ticks (rt s2) = t :: rest ->
  step U Tick s2 = Ok (emit e (set_ticks rest s2)).
Proof.
  intros Hr Ht. cbn. rewrite Ht, Hr. reflexivity.
Qed.

(** C3. Every envelope the connected controller receives is classified:
    a malformed one and one of any other type only leave a diagnostic; a
    NOOP leaves no event; an ERROR queues the "error" event with the
    payload and a USER envelope the "message" event with the payload as
    [data] and the descriptor, when there is one, for a later tick,
    nothing being emitted inside the callback itself. *)
Theorem C3_inbound_classification (msg f : value) (s : state) :
  distinct_tags U ->
  valid_is_array U ->
  exists s',
    handleMessage U msg f s = Ok s' /\
    (isValidMessage U msg = false ->
       no_event s s' /\ log (rt s') = log (rt s) ++ [(1, DInvalid msg)]) /\
    (isValidMessage U msg = true ->
       exists ty p,
         index msg 0 = Ok ty /\ index msg 1 = Ok p /\
         (is_tag ty (MSGTYPE_NOOP U) = true ->
            no_event s s' /\
            log (rt s') = log (rt s) ++ [(3, DReceived ty p)]) /\
         (is_tag ty (MSGTYPE_ERROR U) = true ->
            deferred U (TaskError msg) (EmError p) s s') /\
         (is_tag ty (MSGTYPE_USER U) = true ->
            deferred U (TaskMessage msg f)
              (EmMessage {| data := p;
                            fd := if truthy f then Some f else None |})
              s s') /\
         (is_tag ty (MSGTYPE_NOOP U) = false ->
          is_tag ty (MSGTYPE_ERROR U) = false ->
          is_tag ty (MSGTYPE_USER U) = false ->
            no_event s s' /\
            log (rt s') =
              log (rt s) ++ [(3, DReceived ty p); (1, DUnexpected msg)])).
Proof.
  intros Hd Hv. unfold handleMessage.
  destruct (isValidMessage U msg) eqn:Hvalid; cbn [negb].
  - destruct (Hv msg Hvalid) as (l & ->).
    cbn [index bind].
    set (ty := nth 0 l VUndef). set (p := nth 1 l VUndef).
    destruct (is_tag ty (MSGTYPE_NOOP U)) eqn:Hn;
      [|destruct (is_tag ty (MSGTYPE_ERROR U)) eqn:He;
        [|destruct (is_tag ty (MSGTYPE_USER U)) eqn:Hu]];
      eexists; (split; [reflexivity|]); (split; [discriminate|]);
      intros _; exists ty, p; (split; [reflexivity|]); (split; [reflexivity|]).
    + rewrite (is_tag_other _ _ _ Hn (not_eq_sym (distinct_noop_error Hd))).
      rewrite (is_tag_other _ _ _ Hn (not_eq_sym (distinct_noop_user Hd))).
      repeat split; try discriminate; try absurd_bool;
        destruct s as [[] []]; reflexivity.
    + rewrite (is_tag_other _ _ _ He (not_eq_sym (distinct_error_user Hd))).
      repeat split; try discriminate; try absurd_bool;
        try (destruct s as [[] []]; reflexivity).
      intros s2 rest Ht. eapply tick_runs; [|exact Ht].
      cbn. reflexivity.
    + repeat split; try discriminate; try absurd_bool;
        try (destruct s as [[] []]; reflexivity).
      intros s2 rest Ht. eapply tick_runs; [|exact Ht].
      cbn. destruct (truthy f); reflexivity.
    + repeat split; try discriminate; try absurd_bool;
        try (destruct s as [[] []]; cbn; rewrite <- ?app_assoc; reflexivity).
  - eexists. split; [reflexivity|]. split; [|discriminate].
    intros _. repeat split; destruct s as [[] []]; reflexivity.
Qed.

End Inbound.

(** The greeting of the child, received by a connected controller. *)
Lemma C3_inbound_classification_witness :
  distinct_tags U0 /\ valid_is_array U0 /\
  exists s',
    handleMessage U0 greeting VUndef w_connected = Ok s' /\
    deferred U0 (TaskMessage greeting VUndef)
      (EmMessage {| data := VObj [("greeting", VStr "hi")]; fd := None |})
      w_connected s'.
Proof.
  split; [exact distinct_tags_U0|]. split; [exact valid_is_array_U0|].
  destruct (C3_inbound_classification U0 greeting VUndef w_connected
              distinct_tags_U0 valid_is_array_U0)
    as (s' & Hh & _ & Hv).
  exists s'. split; [exact Hh|].
  destruct (Hv eq_refl) as (ty & p & H0 & H1 & _ & _ & Hu & _).
  cbn in H0, H1. injection H0 as <-. injection H1 as <-.
  apply Hu. reflexivity.
Defined.

(** ** The child and the close request *)

Section ChildClose.

Variable U : wwutil.
Variable onmessage : option (value -> Child.child -> Child.child).

(** C7, on the code: a child that receives the close request does not
    exit; the request falls through to the default case of the listener,
    whatever the worker script assigned to [onmessage]. *)
Theorem C7_child_ignores_close (c : Child.child) :
  MSGTYPE_CLOSE U <> MSGTYPE_USER U ->
  exists c',
    Child.on_msg U onmessage (close_request U) VUndef c = Ok c' /\
    Child.exited c' = Child.exited c.
Proof.
  intros Hne. unfold Child.on_msg, close_request.
  destruct (isValidMessage U _); cbn [negb].
  - cbn [index bind nth].
    destruct (is_tag _ (MSGTYPE_NOOP U)); [eexists; split; reflexivity|].
    assert (Hu : is_tag (VNum (MSGTYPE_CLOSE U)) (MSGTYPE_USER U) = false).
    { cbn. apply Z.eqb_neq. exact Hne. }
    rewrite Hu. eexists; split; reflexivity.
  - eexists; split; reflexivity.
Qed.

End ChildClose.

Lemma C7_child_ignores_close_witness :
  MSGTYPE_CLOSE U0 <> MSGTYPE_USER U0 /\
  exists c',
    Child.on_msg U0 (Some (fun _ c => Child.close c)) (close_request U0)
                 VUndef child0 = Ok c' /\
    Child.exited c' = None.
Proof.
  split; [discriminate|].
  apply (C7_child_ignores_close U0 (Some (fun _ c => Child.close c)) child0).
  discriminate.
Defined.

(** ** What each callback leaves alone *)

(** Splits the result of a callback into its straight-line paths. *)
Ltac paths Hst :=
  repeat match type of Hst with
         | context [fold_left _ _ _] => rewrite fold_send in Hst
         | context [assert ?b] => destruct b eqn:?; cbn in Hst
         | context [match ?x with _ => _ end] =>
             destruct x eqn:?; cbn in Hst
         | context [bind ?r _] => destruct r eqn:?; cbn in Hst
         end;
  try discriminate Hst; try (injection Hst as <-).

Ltac unfold_callbacks Hst :=
  unfold on_connection, handleMessage, postMessage, terminate, kill_timer,
    on_exit, process_exited, on_listening, start in Hst;
  unfold postMessageImpl in Hst;
  cbn in Hst.

Section Frames.

Variable U : wwutil.

Lemma step_keeps_channel (ev : event) (s s' : state) :
  is_connection ev = false ->
  step U ev s = Ok s' ->
  stream (vars s') = stream (vars s) /\
  msgStream (vars s') = msgStream (vars s).
Proof.
  break_state s. destruct ev; cbn; intros Hev Hst; try discriminate Hev;
    unfold_callbacks Hst; paths Hst; cbn; auto.
Qed.

Lemma step_connection (n : nat) (s s' : state) :
  step U (Connection n) s = Ok s' ->
  stream (vars s) = None /\ msgStream (vars s) = None /\
  stream (vars s') = Some n /\ msgStream (vars s') = Some n.
Proof.
  break_state s. cbn. intros Hst.
  destruct st, ms; unfold_callbacks Hst; paths Hst; cbn; auto.
Qed.

Lemma step_keeps_pid (ev : event) (s s' : state) :
  is_listening ev = false ->
  step U ev s = Ok s' ->
  pid (vars s') = pid (vars s).
Proof.
  break_state s. destruct ev; cbn; intros Hev Hst; try discriminate Hev;
    unfold_callbacks Hst; paths Hst; cbn; auto.
Qed.

Lemma step_keeps_kills (ev : event) (s s' : state) :
  is_timer_fire ev = false ->
  step U ev s = Ok s' ->
  kills (rt s') = kills (rt s).
Proof.
  break_state s. destruct ev; cbn; intros Hev Hst; try discriminate Hev;
    unfold_callbacks Hst; paths Hst; cbn; auto.
Qed.

End Frames.

(** ** One connection per controller *)

Section SingleConnection.

Variable U : wwutil.

Lemma on_connection_again (n : nat) (s : state) :
  stream (vars s) <> None ->
  on_connection n s = Throw AssertionError.
Proof.
  unfold on_connection. destruct (stream (vars s)); [reflexivity|congruence].
Qed.

Lemma run_connected (tr : list event) (s s' : state) (x y : nat) :
  run U tr s = Some s' ->
  stream (vars s) = Some x ->
  msgStream (vars s) = Some y ->
  Forall (fun ev => is_connection ev = false) tr /\
  stream (vars s') = Some x /\ msgStream (vars s') = Some y.
Proof.
  revert s. induction tr as [|ev tr IH]; intros s Hrun Hx Hy.
  - injection Hrun as <-. auto.
  - apply run_cons_inv in Hrun as (s1 & _ & Hst & Hr).
    destruct (is_connection ev) eqn:Hev.
    + destruct ev; try discriminate Hev.
      apply step_connection in Hst as (Hn & _). congruence.
    + destruct (step_keeps_channel U ev s s1 Hev Hst) as (H1 & H2).
      destruct (IH s1 Hr) as (HF & Hx' & Hy'); [congruence|congruence|].
      auto.
Qed.

Lemma run_unconnected (tr : list event) (s s' : state) :
  run U tr s = Some s' ->
  stream (vars s) = None ->
  List.length (filter is_connection tr) <= 1 /\
  forall n, In (Connection n) tr ->
            stream (vars s') = Some n /\ msgStream (vars s') = Some n.
Proof.
  revert s. induction tr as [|ev tr IH]; intros s Hrun Hx.
  - split; [cbn; lia|]. intros n [].
  - apply run_cons_inv in Hrun as (s1 & _ & Hst & Hr).
    destruct (is_connection ev) eqn:Hev.
    + destruct ev as [| |m| | | | | |]; try discriminate Hev.
      apply step_connection in Hst as (_ & _ & Hs1 & Hm1).
      destruct (run_connected tr s1 s' m m Hr Hs1 Hm1) as (HF & Hs' & Hm').
      assert (Hnone : filter is_connection tr = []).
      { clear -HF. induction HF as [|e l He _ IHl]; cbn; [reflexivity|].
        rewrite He. exact IHl. }
      split; [cbn; rewrite Hnone; cbn; lia|].
      intros n [E|Hin].
      * injection E as <-. auto.
      * rewrite Forall_forall in HF. specialize (HF _ Hin). discriminate HF.
    + destruct (step_keeps_channel U ev s s1 Hev Hst) as (H1 & _).
      destruct (IH s1 Hr) as (Hlen & Hin); [congruence|].
      split; [cbn; rewrite Hev; exact Hlen|].
      intros n [E|Hn]; [subst ev; discriminate Hev|auto].
Qed.

(** C8. Along every run of a controller at most one connection is
    accepted; the stream and the channel bound by it stay what they are,
    and a further connection fails the assertion of the callback. *)
Theorem C8_at_most_one_connection
  (script : string) (g : master) (tr : list event) (s : state) :
  run U tr (fst (new_WorkerImpl script g)) = Some s ->
  List.length (filter is_connection tr) <= 1 /\
  forall n, In (Connection n) tr ->
    stream (vars s) = Some n /\ msgStream (vars s) = Some n /\
    (forall m, step U (Connection m) s = Throw AssertionError) /\
    (forall m, run U (tr ++ [Connection m])
                   (fst (new_WorkerImpl script g)) = None).
Proof.
  intros Hrun.
  destruct (run_unconnected tr _ s Hrun eq_refl) as (Hlen & Hin).
  split; [exact Hlen|].
  intros n Hn. destruct (Hin n Hn) as (Hs & Hm).
  assert (Hthrow : forall m, step U (Connection m) s = Throw AssertionError).
  { intros m. cbn. apply on_connection_again. congruence. }
  repeat split; auto.
  intros m. rewrite run_app, Hrun. cbn [run]. rewrite Hthrow.
  destruct (enabled (Connection m) s); reflexivity.
Qed.

End SingleConnection.

Lemma C8_at_most_one_connection_witness :
  run U0 [Start; Listening 7; Connection 1]
      (fst (new_WorkerImpl "worker.js" g0)) = Some w_connected /\
  stream (vars w_connected) = Some 1 /\
  step U0 (Connection 2) w_connected = Throw AssertionError.
Proof.
  split; [reflexivity|].
  destruct (C8_at_most_one_connection U0 "worker.js" g0
              [Start; Listening 7; Connection 1] w_connected eq_refl)
    as (_ & H).
  destruct (H 1) as (Hs & _ & Ht & _); [cbn; auto|].
  split; [exact Hs|apply Ht].
Defined.

(** ** Terminating before the child is spawned *)

Section EarlyTerminate.

Variable U : wwutil.

Lemma run_keeps_pid (tr : list event) (s s' : state) :
  Forall (fun ev => is_listening ev = false) tr ->
  run U tr s = Some s' ->
  pid (vars s') = pid (vars s).
Proof.
  intros HF Hrun.
  apply (run_preserves U (fun x => pid (vars x) = pid (vars s))
           (fun ev => is_listening ev = false)) with (tr := tr) (s := s);
    auto.
  intros ev a b Hev Ha _ Hst.
  rewrite (step_keeps_pid U ev a b Hev Hst). exact Ha.
Qed.

(** C10. As long as the listening callback has not run, the recorded pid
    is undefined and terminate fails its first assertion instead of
    returning. *)
Theorem C10_terminate_before_spawn
  (script : string) (g : master) (tr : list event) (t : option Z)
  (s : state) :
  Forall (fun ev => is_listening ev = false) tr ->
  run U tr (fst (new_WorkerImpl script g)) = Some s ->
  pid (vars s) = None /\
  terminate U t s = Throw AssertionError /\
  run U (tr ++ [Terminate t]) (fst (new_WorkerImpl script g)) = None.
Proof.
  intros HF Hrun.
  assert (Hp : pid (vars s) = None).
  { rewrite (run_keeps_pid tr _ s HF Hrun). reflexivity. }
  assert (Ht : terminate U t s = Throw AssertionError).
  { unfold terminate. rewrite Hp. reflexivity. }
  repeat split; auto.
  rewrite run_app, Hrun. cbn. rewrite Ht. reflexivity.
Qed.

End EarlyTerminate.

Lemma C10_terminate_before_spawn_witness :
  Forall (fun ev => is_listening ev = false)
         [Start; PostMessage (VStr "ping") VUndef] /\
  (exists s,
     run U0 [Start; PostMessage (VStr "ping") VUndef]
         (fst (new_WorkerImpl "worker.js" g0)) = Some s /\
     terminate U0 None s = Throw AssertionError).
Proof.
  split; [repeat constructor|].
  eexists. split; [reflexivity|].
  apply (C10_terminate_before_spawn U0 "worker.js" g0
           [Start; PostMessage (VStr "ping") VUndef] None);
    [repeat constructor|reflexivity].
Defined.

(** ** Graceful and forced termination *)

Section Termination.

Variable U : wwutil.

Lemma terminate_noop (t : option Z) (s : state) :
  wf s ->
  killTimeoutID (vars s) <> None \/ child_exited s = true ->
  terminate U t s = Ok s.
Proof.
  break_state s. unfold wf, child_exited, terminate. cbn.
  intros (_ & _ & HP) Hor.
  break_cp c.
  - destruct HP as (-> & _). cbn. unfold pid_eq. rewrite Pos.eqb_refl. cbn.
    destruct Hor as [Hk|Hx]; [|discriminate Hx].
    destruct k; [reflexivity|congruence].
  - destruct HP as (Hp & _). destruct p; [reflexivity|congruence].
  - destruct HP as (_ & -> & _). destruct Hor as [Hk|Hx]; [congruence|discriminate].
Qed.

Lemma terminates_noop (ts : list (option Z)) (s : state) :
  wf s ->
  killTimeoutID (vars s) <> None \/ child_exited s = true ->
  run U (terminates ts) s = Some s.
Proof.
  intros Hwf Hor. induction ts as [|t ts IH]; [reflexivity|].
  cbn [terminates map run enabled step].
  rewrite (terminate_noop t s Hwf Hor). exact IH.
Qed.

(** In every state a controller reaches in which the kill timer is set,
    or the child process has exited, terminate returns without any
    effect, whatever the timeout. *)
Theorem C4_terminate_noop_while_pending
  (script : string) (g : master) (tr : list event) (s : state)
  (ts : list (option Z)) :
  run U tr (fst (new_WorkerImpl script g)) = Some s ->
  killTimeoutID (vars s) <> None \/ child_exited s = true ->
  (forall t, terminate U t s = Ok s) /\
  run U (tr ++ terminates ts) (fst (new_WorkerImpl script g)) = Some s.
Proof.
  intros Hrun Hor.
  assert (Hwf : wf s).
  { eapply run_wf; [apply new_WorkerImpl_wf|exact Hrun]. }
  split.
  - intros t. apply terminate_noop; assumption.
  - rewrite run_app, Hrun. apply terminates_noop; assumption.
Qed.

Lemma step_no_deadline (ev : event) (s s' : state) :
  no_deadline ev = true ->
  (timers (rt s) = [] /\ kills (rt s) = [] /\ killTimeoutID (vars s) = None) ->
  enabled ev s = true ->
  step U ev s = Ok s' ->
  timers (rt s') = [] /\ kills (rt s') = [] /\ killTimeoutID (vars s') = None.
Proof.
  break_state s. destruct ev; cbn; intros Hev (-> & -> & ->) Hen Hst;
    try discriminate Hen;
    unfold_callbacks Hst; paths Hst; cbn; auto;
    try discriminate Hev.
  all: apply Z.leb_le in Hev;
    match goal with
    | H : (_ ?= _)%Z = Gt |- _ => apply Z.compare_gt_iff in H; lia
    | H : (_ >? _)%Z = true |- _ => apply Z.gtb_lt in H; lia
    end.
Qed.

Lemma terminate_arms (d : Z) (s : state) :
  wf s ->
  (0 < d)%Z ->
  running s = true ->
  killTimeoutID (vars s) = None ->
  exists s1,
    terminate U (Some d) s = Ok s1 /\
    killTimeoutID (vars s1) = Some (next_timer (rt s)) /\
    timers (rt s1) = [(next_timer (rt s), d)] /\
    kills (rt s1) = kills (rt s) /\
    running s1 = true.
Proof.
  break_state s. unfold wf, queue_or_channel, running, terminate. cbn.
  intros (HQ & _ & HP) Hd Hrun ->.
  break_cp c; try discriminate Hrun.
  destruct HP as (-> & _ & _ & Ht). cbn.
  unfold pid_eq. rewrite Pos.eqb_refl. cbn.
  assert (Hti : ti = []).
  { destruct ti as [|t ti]; [reflexivity|].
    specialize (Ht t (or_introl eq_refl)). discriminate. }
  subst ti.
  apply Z.gtb_lt in Hd.
  unfold postMessageImpl. cbn.
  destruct ms as [m|]; cbn.
  - destruct HQ as [->|HQ]; [|discriminate HQ]. cbn. rewrite Hd. cbn.
    eexists. split; [reflexivity|]. cbn. auto.
  - rewrite orb_true_r. cbn. rewrite Hd. cbn.
    eexists. split; [reflexivity|]. cbn. auto.
Qed.

Lemma timer_kills (id : nat) (s : state) :
  running s = true ->
  exists s',
    step U (TimerFire id) s = Ok s' /\
    kills (rt s') = kills (rt s) ++ ["SIGTERM"] /\
    killTimeoutID (vars s') = None.
Proof.
  break_state s. unfold running. cbn. intros Hrun.
  break_cp c; try discriminate Hrun.
  unfold kill_timer. cbn. eexists. split; [reflexivity|]. cbn. auto.
Qed.

(** C5. An omitted timeout is the timeout 5000. Along a run whose calls
    of terminate all pass 0, no timer is ever armed and no kill signal
    ever sent. A positive timeout [d], given while the child runs and no
    timer is set, arms one timer of delay [d]; when that timer fires on a
    child that is still running, SIGTERM is sent to it. *)
Theorem C5_timeout_parameter
  (script : string) (g : master) (tr : list event) (s : state) :
  run U tr (fst (new_WorkerImpl script g)) = Some s ->
  terminate U None s = terminate U (Some 5000%Z) s /\
  (Forall (fun ev => no_deadline ev = true) tr ->
     timers (rt s) = [] /\ kills (rt s) = [] /\
     killTimeoutID (vars s) = None) /\
  (forall d, (0 < d)%Z -> running s = true ->
             killTimeoutID (vars s) = None ->
     exists s1,
       terminate U (Some d) s = Ok s1 /\
       killTimeoutID (vars s1) = Some (next_timer (rt s)) /\
       timers (rt s1) = [(next_timer (rt s), d)] /\
       kills (rt s1) = kills (rt s) /\
       enabled (TimerFire (next_timer (rt s))) s1 = true /\
       exists s2,
         step U (TimerFire (next_timer (rt s))) s1 = Ok s2 /\
         kills (rt s2) = kills (rt s) ++ ["SIGTERM"]) /\
  (forall id, running s = true ->
     exists s', step U (TimerFire id) s = Ok s' /\
                kills (rt s') = kills (rt s) ++ ["SIGTERM"]).
Proof.
  intros Hrun.
  assert (Hwf : wf s).
  { eapply run_wf; [apply new_WorkerImpl_wf|exact Hrun]. }
  split; [reflexivity|]. split; [|split].
  - intros HF.
    apply (run_preserves U
             (fun x => timers (rt x) = [] /\ kills (rt x) = [] /\
                       killTimeoutID (vars x) = None)
             (fun ev => no_deadline ev = true) step_no_deadline
             tr (fst (new_WorkerImpl script g)) s HF); auto.
  - intros d Hd Hr Hk.
    destruct (terminate_arms d s Hwf Hd Hr Hk)
      as (s1 & Ht & Hk1 & Hti & Hks & Hr1).
    destruct (timer_kills (next_timer (rt s)) s1 Hr1) as (s2 & Hf & Hks2 & _).
    exists s1. repeat split; auto.
    + unfold enabled, pending. rewrite Hti. cbn. rewrite Nat.eqb_refl.
      reflexivity.
    + exists s2. split; [exact Hf|]. rewrite Hks2, Hks. reflexivity.
  - intros id Hr. destruct (timer_kills id s Hr) as (s' & Hf & Hks & _).
    exists s'. auto.
Qed.

Lemma step_after_exit (ev : event) (s s' : state) :
  wf s ->
  child_exited s = true ->
  enabled ev s = true ->
  step U ev s = Ok s' ->
  child_exited s' = true /\ kills (rt s') = kills (rt s).
Proof.
  break_state s. unfold wf, child_exited. cbn. intros (_ & _ & HP) Hx.
  break_cp c; try discriminate Hx.
  destruct HP as (Hp & -> & -> & _).
  destruct ev; cbn; intros Hen Hst; try discriminate Hen;
    unfold_callbacks Hst; paths Hst; cbn; auto.
Qed.

Lemma run_after_exit (tr : list event) (s s' : state) :
  wf s ->
  child_exited s = true ->
  run U tr s = Some s' ->
  wf s' /\ child_exited s' = true /\ kills (rt s') = kills (rt s).
Proof.
  revert s. induction tr as [|ev tr IH]; intros s Hwf Hx Hrun.
  - injection Hrun as <-. auto.
  - apply run_cons_inv in Hrun as (s1 & Hen & Hst & Hr).
    destruct (step_after_exit ev s s1 Hwf Hx Hen Hst) as (Hx1 & Hk1).
    destruct (IH s1 (step_wf U ev s s1 Hwf Hen Hst) Hx1 Hr) as (H1 & H2 & H3).
    split; [exact H1|]. split; [exact H2|]. rewrite H3. exact Hk1.
Qed.

Lemma wf_exited (s : state) :
  wf s -> child_exited s = true -> timers (rt s) = [] /\ exits s = 1.
Proof.
  unfold wf, child_exited. intros (_ & _ & HP) Hx.
  destruct (cp (vars s)) as [c|]; [|discriminate Hx].
  destruct (cp_pid c); [discriminate Hx|]. tauto.
Qed.

Lemma step_exit_exited (code sg : value) (s s' : state) :
  enabled (ChildExit code sg) s = true ->
  step U (ChildExit code sg) s = Ok s' ->
  child_exited s' = true.
Proof.
  break_state s. unfold child_exited, running. cbn. intros Hen Hst.
  break_cp c; try discriminate Hen.
  unfold_callbacks Hst; paths Hst; cbn; auto.
Qed.

(** C6. Once the child process has exited, no timer is pending, no kill
    signal is sent any more, and there is exactly one exit event, queued
    or emitted; if the timer had not fired before the exit, no kill
    signal was ever sent. *)
Theorem C6_exit_cancels_kill
  (script : string) (g : master) (tr1 tr2 : list event)
  (code sg : value) (s : state) :
  run U (tr1 ++ ChildExit code sg :: tr2) (fst (new_WorkerImpl script g))
    = Some s ->
  exists s1,
    run U tr1 (fst (new_WorkerImpl script g)) = Some s1 /\
    kills (rt s) = kills (rt s1) /\
    timers (rt s) = [] /\
    (forall id, enabled (TimerFire id) s = false) /\
    exits s = 1 /\
    (Forall (fun ev => is_timer_fire ev = false) tr1 -> kills (rt s) = []).
Proof.
  rewrite run_app. intros Hrun.
  destruct (run U tr1 (fst (new_WorkerImpl script g))) as [s1|] eqn:Hr1;
    [|discriminate Hrun].
  apply run_cons_inv in Hrun as (s2 & Hen & Hst & Hr2).
  assert (Hwf1 : wf s1).
  { eapply run_wf; [apply new_WorkerImpl_wf|exact Hr1]. }
  assert (Hwf2 : wf s2) by exact (step_wf U _ s1 s2 Hwf1 Hen Hst).
  assert (Hx2 : child_exited s2 = true)
    by exact (step_exit_exited code sg s1 s2 Hen Hst).
  assert (Hk2 : kills (rt s2) = kills (rt s1))
    by exact (step_keeps_kills U (ChildExit code sg) s1 s2 eq_refl Hst).
  destruct (run_after_exit tr2 s2 s Hwf2 Hx2 Hr2) as (Hwf & Hx & Hk).
  destruct (wf_exited s Hwf Hx) as (Hti & Hex).
  exists s1.
  split; [reflexivity|]. split; [congruence|]. split; [exact Hti|].
  split; [|split; [exact Hex|]].
  - intros id. unfold enabled, pending. rewrite Hti. reflexivity.
  - intros HF. rewrite Hk, Hk2.
    apply (run_preserves U (fun x => kills (rt x) = [])
             (fun ev => is_timer_fire ev = false)) with (tr := tr1)
             (s := fst (new_WorkerImpl script g)); auto.
    intros ev a b Hev Ha _ Hs.
    rewrite (step_keeps_kills U ev a b Hev Hs). exact Ha.
Qed.

End Termination.

Lemma C4_terminate_noop_while_pending_witness :
  run U0 [Start; Listening 7; Connection 1; Terminate (Some 100%Z)]
      (fst (new_WorkerImpl "worker.js" g0)) = Some w_terminating /\
  (killTimeoutID (vars w_terminating) <> None \/
   child_exited w_terminating = true) /\
  run U0 ([Start; Listening 7; Connection 1; Terminate (Some 100%Z)]
          ++ terminates [None; Some 0%Z; Some 7%Z])
      (fst (new_WorkerImpl "worker.js" g0)) = Some w_terminating.
Proof.
  split; [reflexivity|]. split; [left; discriminate|].
  apply (C4_terminate_noop_while_pending U0 "worker.js" g0
           [Start; Listening 7; Connection 1; Terminate (Some 100%Z)]
           w_terminating [None; Some 0%Z; Some 7%Z]);
    [reflexivity|left; discriminate].
Defined.

(** C4, on the code. The guard of terminate looks at killTimeoutID
    alone. Once the timer has fired, with the child still running, a
    further call sends a second CLOSE envelope and arms a second timer;
    and after terminate(0), which sets no timer, the next call sends a
    second CLOSE envelope as well. *)
Lemma C4_terminate_after_timer_fired :
  (run U0 [Start; Listening 7; Connection 1; Terminate (Some 100%Z);
           TimerFire 0]
       (fst (new_WorkerImpl "worker.js" g0)) = Some w_fired /\
   running w_fired = true /\
   sent (rt w_fired) = [close_frame U0] /\
   kills (rt w_fired) = ["SIGTERM"] /\
   exists s,
     terminate U0 (Some 100%Z) w_fired = Ok s /\
     sent (rt s) = [close_frame U0; close_frame U0] /\
     timers (rt s) = [(1, 100%Z)]) /\
  (run U0 [Start; Listening 7; Connection 1; Terminate (Some 0%Z)]
       (fst (new_WorkerImpl "worker.js" g0)) = Some w_waiting /\
   running w_waiting = true /\
   sent (rt w_waiting) = [close_frame U0] /\
   timers (rt w_waiting) = [] /\
   exists s,
     terminate U0 (Some 100%Z) w_waiting = Ok s /\
     sent (rt s) = [close_frame U0; close_frame U0] /\
     timers (rt s) = [(0, 100%Z)]).
Proof.
  split.
  - split; [reflexivity|]. split; [reflexivity|]. split; [reflexivity|].
    split; [reflexivity|].
    eexists. split; [reflexivity|]. split; reflexivity.
  - split; [reflexivity|]. split; [reflexivity|]. split; [reflexivity|].
    split; [reflexivity|].
    eexists. split; [reflexivity|]. split; reflexivity.
Qed.

Lemma C5_timeout_parameter_witness :
  run U0 [Start; Listening 7; Connection 1]
      (fst (new_WorkerImpl "worker.js" g0)) = Some w_connected /\
  exists s1,
    terminate U0 (Some 100%Z) w_connected = Ok s1 /\
    timers (rt s1) = [(0, 100%Z)].
Proof.
  split; [reflexivity|].
  destruct (C5_timeout_parameter U0 "worker.js" g0
              [Start; Listening 7; Connection 1] w_connected eq_refl)
    as (_ & _ & H & _).
  destruct (H 100%Z) as (s1 & Ht & _ & Hti & _);
    [reflexivity|reflexivity|reflexivity|].
  exists s1. split; [exact Ht|exact Hti].
Defined.

Lemma C6_exit_cancels_kill_witness :
  run U0 ([Start; Listening 7; Connection 1; Terminate (Some 100%Z)]
          ++ ChildExit (VNum 0) VNull :: [Tick; Terminate None])
      (fst (new_WorkerImpl "worker.js" g0)) = Some w_exited /\
  kills (rt w_exited) = [] /\
  timers (rt w_exited) = [] /\
  exits w_exited = 1.
Proof.
  split; [reflexivity|].
  destruct (C6_exit_cancels_kill U0 "worker.js" g0
              [Start; Listening 7; Connection 1; Terminate (Some 100%Z)]
              [Tick; Terminate None] (VNum 0) VNull w_exited eq_refl)
    as (s1 & _ & _ & Hti & _ & Hex & Hk).
  split; [|split; [exact Hti|exact Hex]].
  apply Hk. repeat constructor.
Defined.

(** ** Socket paths *)

Lemma append_cancel_l (p a b : string) :
  (p ++ a = p ++ b)%string -> a = b.
Proof.
  induction p as [|ch p IH]; cbn; intros H; [exact H|].
  injection H as H. exact (IH H).
Qed.

Lemma decimal_inj (a b : N) : decimal a = decimal b -> a = b.
Proof.
  unfold decimal. intros H.
  apply DecimalN.Unsigned.to_uint_inj.
  assert (E : Some (N.to_uint a) = Some (N.to_uint b)).
  { rewrite <- (NilEmpty.usu (N.to_uint a)), H. apply NilEmpty.usu. }
  injection E as E. exact E.
Qed.

Lemma path_join_inj (dir : string) (a b : N) :
  path_join dir a = path_join dir b -> a = b.
Proof.
  unfold path_join. intros H.
  apply append_cancel_l in H. apply (append_cancel_l "/") in H.
  apply decimal_inj. exact H.
Qed.

Lemma post_incr_exact (n : N) : (n < 2 ^ 53)%N -> post_incr n = (n + 1)%N.
Proof.
  intros H. unfold post_incr. apply N.ltb_lt in H. rewrite H. reflexivity.
Qed.

Lemma new_workers_paths (scripts : list string) (g : master) :
  (numWorkersCreated g + N.of_nat (List.length scripts) <= 2 ^ 53)%N ->
  forall w, In w (fst (new_workers scripts g)) ->
    exists i,
      (numWorkersCreated g <= i
       < numWorkersCreated g + N.of_nat (List.length scripts))%N /\
      sockPath (vars w) = path_join (SOCK_DIR_PATH g) i.
Proof.
  revert g. induction scripts as [|sc rest IH]; intros g Hb w Hin.
  - destruct Hin.
  - cbn [new_workers] in Hin.
    destruct (new_WorkerImpl sc g) as [w1 g1] eqn:Hnew.
    destruct (new_workers rest g1) as [ws g2] eqn:Hrest.
    cbn [List.length] in Hb. rewrite Nat2N.inj_succ in Hb.
    unfold new_WorkerImpl in Hnew. injection Hnew as <- <-.
    cbn [fst] in Hin. destruct Hin as [<-|Hin].
    + exists (numWorkersCreated g). cbn [sockPath vars].
      split; [cbn [List.length]; rewrite Nat2N.inj_succ; lia|reflexivity].
    + assert (Hinc : post_incr (numWorkersCreated g)
                     = (numWorkersCreated g + 1)%N).
      { apply post_incr_exact. lia. }
      specialize (IH {| master_pid := master_pid g;
                        numWorkersCreated := post_incr (numWorkersCreated g) |}).
      cbn [numWorkersCreated] in IH. rewrite Hinc in IH.
      specialize (IH ltac:(lia) w). rewrite <- Hinc in IH.
      rewrite Hrest in IH. destruct (IH Hin) as (i & Hi & Hp).
      exists i. split; [cbn [List.length]; rewrite Nat2N.inj_succ; lia|].
      exact Hp.
Qed.

(** C9. The controllers constructed in one master process, as long as
    the counter stays within the integers a number holds exactly, have
    pairwise distinct socket paths, each the socket directory of the
    process followed by the value of the counter when it was built. *)
Theorem C9_socket_paths_distinct (scripts : list string) (g : master) :
  (numWorkersCreated g + N.of_nat (List.length scripts) <= 2 ^ 53)%N ->
  NoDup (sockPaths (fst (new_workers scripts g))) /\
  sockPaths (fst (new_workers scripts g)) =
    map (fun i => path_join (SOCK_DIR_PATH g)
                    (numWorkersCreated g + N.of_nat i))
        (seq 0 (List.length scripts)).
Proof.
  revert g. induction scripts as [|sc rest IH]; intros g Hb.
  - split; [constructor|reflexivity].
  - pose proof (new_workers_paths rest) as Hrest.
    cbn [new_workers].
    destruct (new_WorkerImpl sc g) as [w1 g1] eqn:Hnew.
    specialize (IH g1). specialize (Hrest g1).
    destruct (new_workers rest g1) as [ws g2].
    unfold new_WorkerImpl in Hnew. injection Hnew as <- <-.
    cbn [List.length] in Hb. rewrite Nat2N.inj_succ in Hb.
    assert (Hinc : post_incr (numWorkersCreated g)
                   = (numWorkersCreated g + 1)%N).
    { apply post_incr_exact. lia. }
    cbn [numWorkersCreated master_pid fst] in IH, Hrest.
    rewrite Hinc in IH, Hrest.
    destruct IH as (Hnd & Heq); [lia|].
    cbn [fst sockPaths map sockPath vars]. split.
    + constructor; [|exact Hnd].
      intros Hin. apply in_map_iff in Hin as (w & Hw & Hin).
      destruct (Hrest ltac:(lia) w Hin) as (i & Hi & Hp).
      rewrite Hp in Hw. apply path_join_inj in Hw. lia.
    + cbn [List.length seq map]. f_equal.
      * rewrite N.add_0_r. reflexivity.
      * fold (sockPaths ws). rewrite Heq, <- seq_shift, map_map.
        apply map_ext. intros i. unfold SOCK_DIR_PATH. cbn [master_pid].
        f_equal. lia.
Qed.

Lemma C9_socket_paths_distinct_witness :
  (numWorkersCreated g0 + N.of_nat (List.length ["a.js"; "b.js"; "a.js"])
   <= 2 ^ 53)%N /\
  NoDup (sockPaths (fst (new_workers ["a.js"; "b.js"; "a.js"] g0))) /\
  sockPaths (fst (new_workers ["a.js"; "b.js"; "a.js"] g0)) =
    ["/tmp/node-webworker-4242/0"; "/tmp/node-webworker-4242/1";
     "/tmp/node-webworker-4242/2"].
Proof.
  assert (Hb : (numWorkersCreated g0
                + N.of_nat (List.length ["a.js"; "b.js"; "a.js"])
                <= 2 ^ 53)%N) by (vm_compute; discriminate).
  split; [exact Hb|].
  split; [apply (C9_socket_paths_distinct ["a.js"; "b.js"; "a.js"] g0 Hb)|].
  reflexivity.
Defined.

(** ** Envelopes from the master, over whole runs *)

Ltac list_norm :=
  unfold pop, framed, close_frame; cbn;
  rewrite ?map_app, ?app_nil_r; cbn;
  rewrite <- ?app_assoc; cbn; reflexivity.

Section Outbound.

Variable U : wwutil.

(** What one callback adds to the outbound envelopes. *)
Lemma step_out (ev : event) (s s' : state) :
  step U ev s = Ok s' ->
  exists l,
    out s' = out s ++ l /\
    match ev with
    | PostMessage m f => l = [framed U (m, f)]
    | Terminate _ => l = [] \/ l = [close_frame U]
    | _ => l = []
    end.
Proof.
  break_state s. unfold out.
  destruct ev; cbn; intros Hst;
    try (destruct ms as [m0|]; destruct q as [|e0 q]);
    unfold_callbacks Hst; paths Hst; cbn;
    first
      [ exists []; split; [list_norm|auto; fail]
      | eexists; split; [|reflexivity]; list_norm
      | exists [close_frame U]; split; [list_norm|right; reflexivity] ].
Qed.

Lemma run_out_user (tr : list event) (s s' : state) :
  MSGTYPE_CLOSE U <> MSGTYPE_USER U ->
  run U tr s = Some s' ->
  filter (is_user_frame U) (out s') =
  filter (is_user_frame U) (out s) ++ map (framed U) (posted tr).
Proof.
  intros Hne. revert s. induction tr as [|ev tr IH]; intros s Hrun.
  - injection Hrun as <-. cbn. rewrite app_nil_r. reflexivity.
  - apply run_cons_inv in Hrun as (s1 & _ & Hst & Hr).
    rewrite (IH s1 Hr).
    destruct (step_out ev s s1 Hst) as (l & Hout & Hl).
    rewrite Hout, filter_app, <- app_assoc. f_equal.
    assert (Hclose : is_user_frame U (close_frame U) = false).
    { cbn. apply Z.eqb_neq. exact Hne. }
    destruct ev; cbn [posted flat_map app map]; subst; try reflexivity.
    + cbn. rewrite Z.eqb_refl. reflexivity.
    + destruct Hl as [->| ->]; cbn [filter]; [reflexivity|].
      rewrite Hclose. reflexivity.
Qed.

Lemma run_out_frames (tr : list event) (s s' : state) :
  Forall (master_frame U) (out s) ->
  run U tr s = Some s' ->
  Forall (master_frame U) (out s').
Proof.
  revert s. induction tr as [|ev tr IH]; intros s HF Hrun.
  - injection Hrun as <-. exact HF.
  - apply run_cons_inv in Hrun as (s1 & _ & Hst & Hr).
    apply (IH s1); [|exact Hr].
    destruct (step_out ev s s1 Hst) as (l & Hout & Hl).
    rewrite Hout. apply Forall_app. split; [exact HF|].
    destruct ev; subst; try constructor.
    + left. eexists. reflexivity.
    + constructor.
    + destruct Hl as [->| ->]; constructor; [right; reflexivity|constructor].
Qed.

(** X1. Whatever else happens in between (the connection, calls of
    terminate, inbound messages, timers, the exit), the USER envelopes
    sent or still queued are the posted messages, each once and in call
    order; once the channel exists they have all been sent. *)
Theorem outbound_in_call_order
  (script : string) (g : master) (tr : list event) (s : state) :
  MSGTYPE_CLOSE U <> MSGTYPE_USER U ->
  run U tr (fst (new_WorkerImpl script g)) = Some s ->
  filter (is_user_frame U) (out s) = map (framed U) (posted tr) /\
  (msgStream (vars s) <> None ->
   filter (is_user_frame U) (sent (rt s)) = map (framed U) (posted tr)).
Proof.
  intros Hne Hrun.
  pose proof (run_out_user tr _ s Hne Hrun) as Hout. cbn in Hout.
  split; [exact Hout|].
  intros Hms.
  assert (Hwf : wf s).
  { eapply run_wf; [apply new_WorkerImpl_wf|exact Hrun]. }
  destruct Hwf as ([Hq|Hq] & _); [|congruence].
  unfold out in Hout. rewrite Hq in Hout. cbn in Hout.
  rewrite app_nil_r in Hout. exact Hout.
Qed.

(** X2. A controller only ever sends, or queues for sending, USER
    envelopes and the close request, each a two-element array. *)
Theorem outbound_frames_are_user_or_close
  (script : string) (g : master) (tr : list event) (s : state) :
  run U tr (fst (new_WorkerImpl script g)) = Some s ->
  Forall (master_frame U) (out s) /\
    Forall (master_frame U) (sent (rt s)) /\
    Forall (fun e => List.length (fst e) = 2) (sent (rt s)).
Proof.
  intros Hrun.
  assert (HF : Forall (master_frame U) (out s)).
  { apply (run_out_frames tr (fst (new_WorkerImpl script g)));
      [constructor|exact Hrun]. }
  assert (HS : Forall (master_frame U) (sent (rt s))).
  { unfold out in HF. apply Forall_app in HF. tauto. }
  repeat split; auto.
  eapply Forall_impl; [|exact HS].
  intros e [(m & He)| ->]; [rewrite He|]; reflexivity.
Qed.

End Outbound.

Lemma outbound_in_call_order_witness :
  MSGTYPE_CLOSE U0 <> MSGTYPE_USER U0 /\
  run U0 mixed_run (fst (new_WorkerImpl "worker.js" g0)) = Some w_mixed /\
  filter (is_user_frame U0) (sent (rt w_mixed)) =
    map (framed U0)
        [(VStr "a", VUndef); (VStr "b", VNum 4); (VStr "c", VUndef)].
Proof.
  assert (Hne : MSGTYPE_CLOSE U0 <> MSGTYPE_USER U0) by discriminate.
  assert (Hrun : run U0 mixed_run (fst (new_WorkerImpl "worker.js" g0))
                 = Some w_mixed) by (vm_compute; reflexivity).
  split; [exact Hne|]. split; [exact Hrun|].
  apply (proj2 (outbound_in_call_order U0 "worker.js" g0 mixed_run w_mixed
                  Hne Hrun)).
  discriminate.
Defined.

Lemma outbound_frames_are_user_or_close_witness :
  run U0 mixed_run (fst (new_WorkerImpl "worker.js" g0)) = Some w_mixed /\
  Forall (master_frame U0) (sent (rt w_mixed)).
Proof.
  assert (Hrun : run U0 mixed_run (fst (new_WorkerImpl "worker.js" g0))
                 = Some w_mixed) by (vm_compute; reflexivity).
  split; [exact Hrun|].
  exact (proj1 (proj2 (outbound_frames_are_user_or_close U0 "worker.js" g0
                         mixed_run w_mixed Hrun))).
Defined.

(** ** The assertions that can fail *)

Section Safety.

Variable U : wwutil.
Hypothesis valid_array : valid_is_array U.

Lemma step_tasks_ok (ev : event) (s s' : state) :
  Forall task_ok (ticks (rt s)) ->
  step U ev s = Ok s' ->
  Forall task_ok (ticks (rt s')).
Proof.
  break_state s. destruct ev; cbn; intros HF Hst.
  4: { unfold handleMessage in Hst.
       destruct (isValidMessage U msg) eqn:Hv; cbn in Hst.
       - destruct (valid_array msg Hv) as (l & ->). cbn in Hst.
         paths Hst; cbn; auto;
           apply Forall_app; (split; [exact HF|]);
           repeat constructor; eexists; reflexivity.
       - injection Hst as <-. exact HF. }
  all: unfold_callbacks Hst; paths Hst; cbn; auto;
    try (apply Forall_app; split; [exact HF|repeat constructor]);
    try (inversion HF; assumption).
Qed.

Lemma run_tasks_ok (tr : list event) (s s' : state) :
  Forall task_ok (ticks (rt s)) ->
  run U tr s = Some s' ->
  Forall task_ok (ticks (rt s')).
Proof.
  intros HF Hrun.
  apply (run_preserves U (fun x => Forall task_ok (ticks (rt x)))
           (fun _ => True)
           (fun ev a b _ Ha _ Hs => step_tasks_ok ev a b Ha Hs)
           tr s s'); auto.
  apply Forall_forall. auto.
Qed.

Lemma task_ok_runs (t : task) : task_ok t -> exists e, run_task t = Ok e.
Proof.
  destruct t as [m|m f|c sg]; cbn.
  - intros (l & ->). eexists. reflexivity.
  - intros (l & ->). eexists. reflexivity.
  - intros _. eexists. reflexivity.
Qed.

Lemma step_throws (ev : event) (s : state) (e : exn) :
  wf s ->
  Forall task_ok (ticks (rt s)) ->
  enabled ev s = true ->
  step U ev s = Throw e ->
  e = AssertionError /\
  ((exists n, ev = Connection n /\ stream (vars s) <> None) \/
   (exists t, ev = Terminate t /\ pid (vars s) = None)).
Proof.
  break_state s. unfold wf, queue_or_channel.
  destruct ev; cbn; intros (HQ & HS & HP) HT Hen Hst;
    try discriminate Hst.
  - (* Connection *)
    unfold on_connection in Hst. cbn in Hst. subst ms.
    destruct st; cbn in Hst; [|discriminate Hst].
    injection Hst as <-. split; [reflexivity|].
    left. eexists. split; [reflexivity|discriminate].
  - (* Msg *)
    unfold handleMessage in Hst.
    destruct (isValidMessage U msg) eqn:Hv; cbn in Hst;
      [|discriminate Hst].
    destruct (valid_array msg Hv) as (l & ->). cbn in Hst.
    paths Hst.
  - (* PostMessage *)
    unfold postMessage, postMessageImpl in Hst. cbn in Hst.
    destruct ms; cbn in Hst.
    + destruct HQ as [->|HQ]; [|discriminate HQ]. discriminate Hst.
    + rewrite orb_true_r in Hst. discriminate Hst.
  - (* Terminate *)
    unfold terminate in Hst. cbn in Hst.
    destruct p as [p|]; cbn in Hst.
    + exfalso. break_cp c.
      * destruct HP as (Hp & _ & _ & Ht). injection Hp as <-.
        unfold pid_eq in Hst. rewrite Pos.eqb_refl in Hst. cbn in Hst.
        destruct k; cbn in Hst; [discriminate Hst|].
        unfold postMessageImpl in Hst. cbn in Hst.
        destruct ms; cbn in Hst.
        -- destruct HQ as [->|HQ]; [|discriminate HQ]. cbn in Hst.
           paths Hst.
        -- rewrite orb_true_r in Hst. cbn in Hst. paths Hst.
      * cbn in Hst. discriminate Hst.
      * destruct HP as (Hp & _). discriminate Hp.
    + injection Hst as <-. split; [reflexivity|].
      right. eexists. split; reflexivity.
  - (* TimerFire *)
    exfalso. apply pending_in in Hen as (t0 & Hin & _). cbn in Hin.
    unfold kill_timer in Hst. cbn in Hst.
    break_cp c; try discriminate Hst.
    destruct HP as (_ & _ & -> & _). destruct Hin.
  - (* Tick *)
    exfalso. destruct tk as [|t rest]; [discriminate Hst|].
    inversion HT as [|? ? Hok _]; subst.
    destruct (task_ok_runs t Hok) as (e0 & He0).
    rewrite He0 in Hst. discriminate Hst.
Qed.

(** X3. In every state a controller reaches, and for every occurrence
    the runtime can deliver there, a callback throws in two cases only: a
    second connection, and terminate before the child is spawned. The
    assertion of postMessageImpl and the second one of terminate never
    fail, and the timer callback never reads the pid of a missing
    process. *)
Theorem only_two_assertions_fail
  (script : string) (g : master) (tr : list event) (s : state)
  (ev : event) (e : exn) :
  run U tr (fst (new_WorkerImpl script g)) = Some s ->
  enabled ev s = true ->
  step U ev s = Throw e ->
  e = AssertionError /\
  ((exists n, ev = Connection n /\ stream (vars s) <> None) \/
   (exists t, ev = Terminate t /\ pid (vars s) = None)).
Proof.
  intros Hrun Hen Hst.
  apply (step_throws ev s e); auto.
  - eapply run_wf; [apply new_WorkerImpl_wf|exact Hrun].
  - apply (run_tasks_ok tr (fst (new_WorkerImpl script g))); [constructor|exact Hrun].
Qed.

End Safety.

Lemma only_two_assertions_fail_witness :
  valid_is_array U0 /\
  run U0 [Start; Listening 7; Connection 1]
      (fst (new_WorkerImpl "worker.js" g0)) = Some w_connected /\
  enabled (Connection 2) w_connected = true /\
  step U0 (Connection 2) w_connected = Throw AssertionError /\
  exists n, Connection 2 = Connection n /\ stream (vars w_connected) <> None.
Proof.
  assert (Hrun : run U0 [Start; Listening 7; Connection 1]
                     (fst (new_WorkerImpl "worker.js" g0)) = Some w_connected)
    by reflexivity.
  split; [exact valid_is_array_U0|]. split; [exact Hrun|].
  split; [reflexivity|]. split; [reflexivity|].
  destruct (only_two_assertions_fail U0 valid_is_array_U0 "worker.js" g0
              [Start; Listening 7; Connection 1] w_connected
              (Connection 2) AssertionError Hrun eq_refl eq_refl)
    as (_ & [H|(t & Ht & _)]); [exact H|discriminate Ht].
Defined.

(** ** Events to the application, over whole runs *)

Section InboundOrder.

Variable U : wwutil.
Hypothesis tags : distinct_tags U.

Lemma flat_map_snoc {A B : Type} (f : A -> list B) (l : list A) (a : A) :
  flat_map f (l ++ [a]) = flat_map f l ++ f a.
Proof.
  rewrite flat_map_app. cbn. rewrite app_nil_r. reflexivity.
Qed.

Lemma step_events (ev : event) (s s' : state) :
  step U ev s = Ok s' ->
  events_of s' = events_of s ++ received U ev.
Proof.
  break_state s. unfold events_of.
  destruct ev; cbn [received].
  4: { cbn. unfold handleMessage.
       destruct (isValidMessage U msg) eqn:Hv; cbn [negb].
       - destruct (index msg 0) as [ty|] eqn:H0; [|discriminate].
         destruct (index msg 1) as [pl|] eqn:H1; [|discriminate].
         cbn [bind].
         destruct (is_tag ty (MSGTYPE_NOOP U)) eqn:Hn;
           [|destruct (is_tag ty (MSGTYPE_ERROR U)) eqn:He;
             [|destruct (is_tag ty (MSGTYPE_USER U)) eqn:Hu]];
           intros Hst; injection Hst as <-; cbn.
         + apply is_tag_true in Hn. subst ty.
           pose proof (distinct_noop_error U tags) as D1.
           pose proof (distinct_noop_user U tags) as D2.
           apply not_eq_sym, Z.eqb_neq in D1.
           apply not_eq_sym, Z.eqb_neq in D2.
           rewrite D1, D2, app_nil_r. reflexivity.
         + apply is_tag_true in He. subst ty.
           rewrite Z.eqb_refl, flat_map_snoc.
           unfold task_emission. cbn. rewrite H1. cbn.
           rewrite app_assoc. reflexivity.
         + apply is_tag_true in Hu. subst ty.
           cbn in He. rewrite He, Z.eqb_refl, flat_map_snoc.
           unfold task_emission. cbn. rewrite H1. cbn.
           rewrite app_assoc. destruct (truthy f); reflexivity.
         + destruct ty; cbn in He, Hu; rewrite ?He, ?Hu, ?app_nil_r;
             reflexivity.
       - intros Hst; injection Hst as <-. cbn. rewrite app_nil_r.
         reflexivity. }
  all: cbn; intros Hst; unfold_callbacks Hst; paths Hst; cbn;
    rewrite ?app_nil_r; try reflexivity.
  all: try (rewrite flat_map_snoc, app_assoc; reflexivity).
  (* Tick *)
  match goal with H : run_task _ = Ok _ |- _ =>
    unfold task_emission; rewrite H end.
  cbn. rewrite <- app_assoc. reflexivity.
Qed.

(** X5. The events of a controller (emitted, or queued for a coming
    tick) are those of the accepted ERROR and USER envelopes and of the
    exit of the child process, each once and in the order of arrival;
    once the next-tick queue is empty, they have all been emitted. *)
Theorem events_in_arrival_order
  (script : string) (g : master) (tr : list event) (s : state) :
  run U tr (fst (new_WorkerImpl script g)) = Some s ->
  events_of s = flat_map (received U) tr /\
  (ticks (rt s) = [] -> emitted (rt s) = flat_map (received U) tr).
Proof.
  intros Hrun.
  assert (H : forall tr0 s0 s1, run U tr0 s0 = Some s1 ->
                events_of s1 = events_of s0 ++ flat_map (received U) tr0).
  { intros tr0. induction tr0 as [|ev tr0 IH]; intros s0 s1 Hrun0.
    - injection Hrun0 as <-. cbn. rewrite app_nil_r. reflexivity.
    - apply run_cons_inv in Hrun0 as (s2 & _ & Hst & Hr).
      rewrite (IH s2 s1 Hr), (step_events ev s0 s2 Hst), <- app_assoc.
      reflexivity. }
  specialize (H tr _ s Hrun). cbn in H.
  split; [exact H|].
  intros Ht. unfold events_of in H. rewrite Ht in H. cbn in H.
  rewrite app_nil_r in H. exact H.
Qed.

End InboundOrder.

Lemma events_in_arrival_order_witness :
  distinct_tags U0 /\
  run U0 session_run (fst (new_WorkerImpl "worker.js" g0)) = Some w_session /\
  emitted (rt w_session) =
    [EmMessage {| data := VObj [("greeting", VStr "hi")]; fd := None |};
     EmError (VStr "boom"); EmExit (VNum 0) VNull].
Proof.
  assert (Hrun : run U0 session_run (fst (new_WorkerImpl "worker.js" g0))
                 = Some w_session) by (vm_compute; reflexivity).
  split; [exact distinct_tags_U0|]. split; [exact Hrun|].
  rewrite (proj2 (events_in_arrival_order U0 distinct_tags_U0 "worker.js" g0
                    session_run w_session Hrun) eq_refl).
  reflexivity.
Defined.

(** ** A child that exits before it connects *)

Section NoHandshake.

Variable U : wwutil.

Lemma step_unconnected (ev : event) (s s' : state) :
  is_connection ev = false ->
  stream (vars s) = None /\ msgStream (vars s) = None /\
  sent (rt s) = [] /\ destroyed (rt s) = false ->
  step U ev s = Ok s' ->
  stream (vars s') = None /\ msgStream (vars s') = None /\
  sent (rt s') = [] /\ destroyed (rt s') = false.
Proof.
  break_state s. destruct ev; cbn; intros Hev (-> & -> & -> & ->) Hst;
    try discriminate Hev;
    unfold_callbacks Hst; paths Hst; cbn; auto.
Qed.

Lemma step_log_grows (ev : event) (s s' : state) (x : nat * diag) :
  step U ev s = Ok s' ->
  In x (log (rt s)) -> In x (log (rt s')).
Proof.
  break_state s. destruct ev; cbn; intros Hst Hin;
    unfold_callbacks Hst; paths Hst; cbn;
    repeat (apply in_or_app; left); exact Hin.
Qed.

Lemma step_stays_closed (ev : event) (s s' : state) :
  srv (rt s) = SrvClosed ->
  enabled ev s = true ->
  step U ev s = Ok s' ->
  srv (rt s') = SrvClosed.
Proof.
  break_state s. destruct ev; cbn; intros -> Hen Hst;
    try discriminate Hen;
    unfold_callbacks Hst; paths Hst; cbn; auto.
Qed.

Lemma exit_without_stream (code sg : value) (s s' : state) :
  stream (vars s) = None ->
  step U (ChildExit code sg) s = Ok s' ->
  srv (rt s') = SrvClosed /\
  In (1, DNoHandshake (pid (vars s))) (log (rt s')).
Proof.
  break_state s. cbn. intros -> Hst. injection Hst as <-.
  unfold on_exit, process_exited.
  destruct c as [c0|]; destruct k; cbn; (split; [reflexivity|]);
    apply in_or_app; right; left; reflexivity.
Qed.

(** X4. When the child process exits before any connection was
    accepted, the exit callback notes the missing handshake and closes
    the server; from then on no connection is ever accepted, the channel
    stays undefined, nothing is ever sent, and the messages posted
    before or after the exit stay on the queue, in call order. *)
Theorem exit_before_handshake
  (script : string) (g : master) (tr1 tr2 : list event)
  (code sg : value) (s : state) :
  MSGTYPE_CLOSE U <> MSGTYPE_USER U ->
  Forall (fun ev => is_connection ev = false) tr1 ->
  run U (tr1 ++ ChildExit code sg :: tr2) (fst (new_WorkerImpl script g))
    = Some s ->
  msgStream (vars s) = None /\
  sent (rt s) = [] /\
  destroyed (rt s) = false /\
  (forall n, enabled (Connection n) s = false) /\
  (exists p, In (1, DNoHandshake p) (log (rt s))) /\
  filter (is_user_frame U) (map pop (msgQueue (vars s))) =
    map (framed U) (posted (tr1 ++ ChildExit code sg :: tr2)).
Proof.
  intros Hne HF Hrun.
  pose proof (run_out_user U _ _ s Hne Hrun) as Hout. cbn in Hout.
  rewrite run_app in Hrun.
  destruct (run U tr1 (fst (new_WorkerImpl script g))) as [s1|] eqn:Hr1;
    [|discriminate Hrun].
  apply run_cons_inv in Hrun as (s2 & Hen & Hst & Hr2).
  assert (H1 : stream (vars s1) = None /\ msgStream (vars s1) = None /\
               sent (rt s1) = [] /\ destroyed (rt s1) = false).
  { apply (run_preserves U
             (fun x => stream (vars x) = None /\ msgStream (vars x) = None /\
                       sent (rt x) = [] /\ destroyed (rt x) = false)
             (fun ev => is_connection ev = false)
             (fun ev a b Hev Ha _ Hs => step_unconnected ev a b Hev Ha Hs)
             tr1 (fst (new_WorkerImpl script g)) s1 HF); [|exact Hr1].
    cbn. auto. }
  destruct (exit_without_stream code sg s1 s2 (proj1 H1) Hst) as (Hc2 & Hl2).
  pose proof (step_unconnected _ s1 s2 (eq_refl : is_connection
                (ChildExit code sg) = false) H1 Hst) as H2.
  assert (H3 : forall tr a b,
             run U tr a = Some b ->
             srv (rt a) = SrvClosed ->
             (stream (vars a) = None /\ msgStream (vars a) = None /\
              sent (rt a) = [] /\ destroyed (rt a) = false) ->
             forall x, In x (log (rt a)) ->
             srv (rt b) = SrvClosed /\
             (stream (vars b) = None /\ msgStream (vars b) = None /\
              sent (rt b) = [] /\ destroyed (rt b) = false) /\
             In x (log (rt b))).
  { intros tr. induction tr as [|ev tr IH]; intros a b Hr Hc Hn x Hx.
    - injection Hr as <-. auto.
    - apply run_cons_inv in Hr as (a1 & Hena & Hsta & Hra).
      apply (IH a1 b Hra).
      + exact (step_stays_closed ev a a1 Hc Hena Hsta).
      + apply (step_unconnected ev a a1); auto.
        destruct ev; try reflexivity. cbn in Hena. rewrite Hc in Hena.
        discriminate Hena.
      + exact (step_log_grows ev a a1 x Hsta Hx). }
  destruct (H3 tr2 s2 s Hr2 Hc2 H2 _ Hl2) as (Hc & (_ & Hms & Hse & Hde) & Hl).
  split; [exact Hms|]. split; [exact Hse|]. split; [exact Hde|].
  split; [|split].
  - intros n. cbn. rewrite Hc. reflexivity.
  - eexists. exact Hl.
  - unfold out in Hout. rewrite Hse in Hout. exact Hout.
Qed.

End NoHandshake.

Lemma exit_before_handshake_witness :
  MSGTYPE_CLOSE U0 <> MSGTYPE_USER U0 /\
  Forall (fun ev => is_connection ev = false)
         [Start; PostMessage (VStr "a") VUndef; Listening 7] /\
  run U0 ([Start; PostMessage (VStr "a") VUndef; Listening 7]
          ++ ChildExit (VNum 1) VNull :: [PostMessage (VStr "b") VUndef; Tick])
      (fst (new_WorkerImpl "worker.js" g0)) = Some w_crashed /\
  sent (rt w_crashed) = [] /\
  msgQueue (vars w_crashed) =
    [[VNum 100; VStr "a"; VUndef]; [VNum 100; VStr "b"; VUndef]].
Proof.
  assert (Hne : MSGTYPE_CLOSE U0 <> MSGTYPE_USER U0) by discriminate.
  assert (HF : Forall (fun ev => is_connection ev = false)
                 [Start; PostMessage (VStr "a") VUndef; Listening 7])
    by (repeat constructor).
  assert (Hrun : run U0 ([Start; PostMessage (VStr "a") VUndef; Listening 7]
                   ++ ChildExit (VNum 1) VNull
                      :: [PostMessage (VStr "b") VUndef; Tick])
                   (fst (new_WorkerImpl "worker.js" g0)) = Some w_crashed)
    by (vm_compute; reflexivity).
  split; [exact Hne|]. split; [exact HF|]. split; [exact Hrun|].
  split; [|reflexivity].
  exact (proj1 (proj2 (exit_before_handshake U0 "worker.js" g0 _ _ _ _
                         w_crashed Hne HF Hrun))).
Defined.

(** ** Timers and kill signals, over whole runs *)

Section Timers.

Variable U : wwutil.

Lemma wf_timer_free (s : state) :
  wf s -> killTimeoutID (vars s) = None -> timers (rt s) = [].
Proof.
  unfold wf. intros (_ & _ & HP) Hk.
  destruct (cp (vars s)) as [c|]; [|tauto].
  destruct (cp_pid c); [|tauto].
  destruct HP as (_ & _ & _ & Ht).
  destruct (timers (rt s)) as [|t ti]; [reflexivity|].
  specialize (Ht t (or_introl eq_refl)). congruence.
Qed.

Lemma wf_timer_running (s : state) (t : nat * Z) :
  wf s -> In t (timers (rt s)) ->
  killTimeoutID (vars s) = Some (fst t) /\ running s = true.
Proof.
  unfold wf, running. intros (_ & _ & HP) Hin.
  destruct (cp (vars s)) as [c|].
  - destruct (cp_pid c).
    + destruct HP as (_ & _ & _ & Ht). split; [exact (Ht t Hin)|reflexivity].
    + destruct HP as (_ & _ & Ht & _). rewrite Ht in Hin. destruct Hin.
  - destruct HP as (_ & _ & Ht & _). rewrite Ht in Hin. destruct Hin.
Qed.

Lemma filter_bound {A : Type} (f : A -> bool) (P : A -> Prop) (l : list A) :
  List.length l <= 1 /\ Forall P l ->
  List.length (filter f l) <= 1 /\ Forall P (filter f l).
Proof.
  intros (Hl & HP). split.
  - pose proof (filter_length_le f l). lia.
  - rewrite Forall_forall in *. intros x Hx.
    apply filter_In in Hx. apply HP. tauto.
Qed.

Lemma step_timer_bound (ev : event) (s s' : state) :
  wf s ->
  (List.length (timers (rt s)) <= 1 /\
   Forall (fun t => fst t < next_timer (rt s)) (timers (rt s))) ->
  step U ev s = Ok s' ->
  List.length (timers (rt s')) <= 1 /\
  Forall (fun t => fst t < next_timer (rt s')) (timers (rt s')).
Proof.
  intros Hwf HB Hst.
  pose proof (wf_timer_free s Hwf) as Hfree.
  revert HB Hst Hfree. clear Hwf. break_state s.
  destruct ev; cbn; intros HB Hst Hfree;
    try (destruct k as [id|]; [|rewrite (Hfree eq_refl) in *]);
    unfold_callbacks Hst; paths Hst; cbn;
    try exact HB; try (apply filter_bound; exact HB);
    try (split; [cbn; lia|repeat constructor; cbn; lia]).
Qed.

(** X6. At any time at most one kill timer is pending; it is the one
    recorded in killTimeoutID, it was armed for a child that is still
    running, and its id is older than the next one to be given out. *)
Theorem at_most_one_timer
  (script : string) (g : master) (tr : list event) (s : state) :
  run U tr (fst (new_WorkerImpl script g)) = Some s ->
  List.length (timers (rt s)) <= 1 /\
  forall t, In t (timers (rt s)) ->
    killTimeoutID (vars s) = Some (fst t) /\
    running s = true /\
    fst t < next_timer (rt s).
Proof.
  intros Hrun.
  assert (Hwf : wf s).
  { eapply run_wf; [apply new_WorkerImpl_wf|exact Hrun]. }
  assert (HB : wf s /\
               List.length (timers (rt s)) <= 1 /\
               Forall (fun t => fst t < next_timer (rt s)) (timers (rt s))).
  { apply (run_preserves U
             (fun x => wf x /\ List.length (timers (rt x)) <= 1 /\
                       Forall (fun t => fst t < next_timer (rt x))
                              (timers (rt x)))
             (fun _ => True)) with (tr := tr)
             (s := fst (new_WorkerImpl script g)); auto.
    - intros ev a b _ (Ha & Hb) He Hs. split.
      + exact (step_wf U ev a b Ha He Hs).
      + exact (step_timer_bound ev a b Ha Hb Hs).
    - apply Forall_forall. auto.
    - split; [apply new_WorkerImpl_wf|]. cbn. split; [lia|constructor]. }
  destruct HB as (_ & Hlen & Hlt).
  split; [exact Hlen|].
  intros t Hin. destruct (wf_timer_running s t Hwf Hin) as (Hk & Hr).
  rewrite Forall_forall in Hlt. auto.
Qed.

Lemma step_kills (ev : event) (s s' : state) :
  wf s ->
  enabled ev s = true ->
  step U ev s = Ok s' ->
  kills (rt s') =
  kills (rt s) ++ (if is_timer_fire ev then ["SIGTERM"] else []).
Proof.
  intros Hwf Hen Hst.
  destruct (is_timer_fire ev) eqn:Hev.
  - destruct ev; try discriminate Hev.
    cbn [enabled] in Hen. unfold pending in Hen.
    apply pending_in in Hen as (t & Hin & _).
    destruct (wf_timer_running s t Hwf Hin) as (_ & Hr).
    destruct (timer_kills U id s Hr) as (s2 & Hs2 & Hk & _).
    rewrite Hs2 in Hst. injection Hst as <-. exact Hk.
  - rewrite app_nil_r. exact (step_keeps_kills U ev s s' Hev Hst).
Qed.

(** X7. The kill signals sent to the child are one SIGTERM for each
    kill timer that fired, and nothing else: a timer never fires on a
    child that has exited, and no other callback signals the child. *)
Theorem kills_are_fired_timers
  (script : string) (g : master) (tr : list event) (s : state) :
  run U tr (fst (new_WorkerImpl script g)) = Some s ->
  kills (rt s) =
  repeat "SIGTERM" (List.length (filter is_timer_fire tr)).
Proof.
  intros Hrun.
  assert (H : forall tr0 a b, wf a -> run U tr0 a = Some b ->
                kills (rt b) = kills (rt a) ++
                  repeat "SIGTERM" (List.length (filter is_timer_fire tr0))).
  { intros tr0. induction tr0 as [|ev tr0 IH]; intros a b Ha Hr.
    - injection Hr as <-. cbn. rewrite app_nil_r. reflexivity.
    - apply run_cons_inv in Hr as (a1 & He & Hs & Hr).
      rewrite (IH a1 b (step_wf U ev a a1 Ha He Hs) Hr).
      rewrite (step_kills ev a a1 Ha He Hs), <- app_assoc. cbn [filter].
      destruct (is_timer_fire ev); reflexivity. }
  rewrite (H tr _ s (new_WorkerImpl_wf script g) Hrun). reflexivity.
Qed.

End Timers.

Lemma at_most_one_timer_witness :
  run U0 [Start; Listening 7; Connection 1; Terminate (Some 100%Z)]
      (fst (new_WorkerImpl "worker.js" g0)) = Some w_terminating /\
  timers (rt w_terminating) = [(0, 100%Z)] /\
  killTimeoutID (vars w_terminating) = Some 0.
Proof.
  assert (Hrun : run U0 [Start; Listening 7; Connection 1;
                         Terminate (Some 100%Z)]
                     (fst (new_WorkerImpl "worker.js" g0))
                 = Some w_terminating) by reflexivity.
  split; [exact Hrun|]. split; [reflexivity|].
  apply (proj2 (at_most_one_timer U0 "worker.js" g0 _ w_terminating Hrun)
               (0, 100%Z)).
  left. reflexivity.
Defined.

Lemma kills_are_fired_timers_witness :
  run U0 forced_run (fst (new_WorkerImpl "worker.js" g0)) = Some w_forced /\
  kills (rt w_forced) = ["SIGTERM"].
Proof.
  assert (Hrun : run U0 forced_run (fst (new_WorkerImpl "worker.js" g0))
                 = Some w_forced) by (vm_compute; reflexivity).
  split; [exact Hrun|].
  exact (kills_are_fired_timers U0 "worker.js" g0 forced_run w_forced Hrun).
Defined.

(** ** The hooks of the application *)

Section Hooks.

Variable U : wwutil.
Hypothesis tags : distinct_tags U.

Lemma step_emitted_grows (ev : event) (s s' : state) :
  step U ev s = Ok s' ->
  exists l, emitted (rt s') = emitted (rt s) ++ l.
Proof.
  break_state s. destruct ev; cbn; intros Hst;
    unfold_callbacks Hst; paths Hst; cbn;
    first [ exists []; rewrite app_nil_r; reflexivity
          | eexists; reflexivity ].
Qed.

Lemma fold_listeners (l : list emission) (w : worker) :
  fold_left listeners l w =
  {| impl := impl w; onerror := onerror w; onmessage := onmessage w;
     onexit := onexit w;
     hooked := hooked w
               ++ flat_map (dispatch (onerror w) (onmessage w) (onexit w)) l |}.
Proof.
  revert w. induction l as [|e l IH]; intros w; cbn.
  - rewrite app_nil_r. destruct w; reflexivity.
  - rewrite IH. cbn. rewrite <- app_assoc. reflexivity.
Qed.

Lemma run_events (tr : list event) (s s' : state) :
  run U tr s = Some s' ->
  events_of s' = events_of s ++ flat_map (received U) tr.
Proof.
  revert s. induction tr as [|ev tr IH]; intros s Hrun.
  - injection Hrun as <-. cbn. rewrite app_nil_r. reflexivity.
  - apply run_cons_inv in Hrun as (s1 & _ & Hst & Hr).
    rewrite (IH s1 Hr), (step_events U tags ev s s1 Hst), <- app_assoc.
    reflexivity.
Qed.

Lemma worker_run_occurs (tr : list event) (w w' : worker) :
  worker_run U (map Occur tr) w = Some w' ->
  run U tr (impl w) = Some (impl w') /\
  exists l,
    emitted (rt (impl w')) = emitted (rt (impl w)) ++ l /\
    hooked w' =
      hooked w ++ flat_map (dispatch (onerror w) (onmessage w) (onexit w)) l.
Proof.
  revert w. induction tr as [|ev tr IH]; intros w Hrun.
  - injection Hrun as <-. split; [reflexivity|].
    exists []. cbn. rewrite !app_nil_r. auto.
  - cbn [map worker_run worker_enabled worker_step] in Hrun.
    cbn [run].
    destruct (enabled ev (impl w)); [|discriminate Hrun].
    destruct (step U ev (impl w)) as [i|] eqn:Hst; [|discriminate Hrun].
    cbn [bind] in Hrun. rewrite fold_listeners in Hrun. cbn in Hrun.
    destruct (step_emitted_grows ev (impl w) i Hst) as (l1 & Hl1).
    rewrite Hl1, skipn_app, skipn_all, Nat.sub_diag in Hrun. cbn in Hrun.
    destruct (IH _ Hrun) as (Hr & l2 & Hl2 & Hh). cbn in Hr, Hl2, Hh.
    split; [exact Hr|].
    exists (l1 ++ l2). split.
    + rewrite Hl2, Hl1, app_assoc. reflexivity.
    + rewrite Hh, flat_map_app, app_assoc. reflexivity.
Qed.

(** X8. For a worker whose hooks are assigned once, right after its
    construction, the calls made to the hooks are the emitted events in
    order, each handed once to the hook of its kind and dropped when that
    hook was left unset; once the next-tick queue is empty these are the
    events of all accepted ERROR and USER envelopes and of the exit. *)
Theorem hooks_called_in_order
  (script : string) (g : master) (h1 h2 h3 : option nat)
  (tr : list event) (w : worker) :
  worker_run U
    (SetOnError h1 :: SetOnMessage h2 :: SetOnExit h3 :: map Occur tr)
    (fst (new_Worker script g)) = Some w ->
  hooked w = flat_map (dispatch h1 h2 h3) (emitted (rt (impl w))) /\
  (ticks (rt (impl w)) = [] ->
   hooked w = flat_map (dispatch h1 h2 h3) (flat_map (received U) tr)).
Proof.
  intros Hrun. unfold new_Worker in Hrun.
  destruct (new_WorkerImpl script g) as [i g'] eqn:Hnew.
  cbn [fst worker_run worker_enabled worker_step] in Hrun.
  apply worker_run_occurs in Hrun as (Hr & l & Hl & Hh).
  cbn [impl onerror onmessage onexit hooked] in Hr, Hl, Hh.
  assert (Hi : i = fst (new_WorkerImpl script g)) by (rewrite Hnew; reflexivity).
  assert (He0 : emitted (rt (start i)) = []) by (subst i; reflexivity).
  rewrite He0 in Hl. cbn in Hl, Hh.
  split; [rewrite Hl; exact Hh|].
  intros Ht.
  pose proof (run_events tr (start i) (impl w) Hr) as Hev.
  unfold events_of in Hev. rewrite Ht, He0 in Hev.
  assert (Ht0 : ticks (rt (start i)) = []) by (subst i; reflexivity).
  rewrite Ht0 in Hev. cbn in Hev. rewrite app_nil_r in Hev.
  rewrite Hh, <- Hl, Hev. reflexivity.
Qed.

End Hooks.

Lemma hooks_called_in_order_witness :
  distinct_tags U0 /\
  worker_run U0 facade_run (fst (new_Worker "worker.js" g0))
    = Some worker_done /\
  hooked worker_done =
    [(1, EmMessage {| data := VObj [("greeting", VStr "hi")]; fd := None |});
     (2, EmExit (VNum 0) VNull)].
Proof.
  assert (Hrun : worker_run U0 facade_run (fst (new_Worker "worker.js" g0))
                 = Some worker_done) by (vm_compute; reflexivity).
  split; [exact distinct_tags_U0|]. split; [exact Hrun|].
  rewrite (proj1 (hooks_called_in_order U0 distinct_tags_U0 "worker.js" g0
                    None (Some 1) (Some 2) _ worker_done Hrun)).
  reflexivity.
Defined.

(** ** The two ends of the channel *)

Section BothEnds.

Variable U : wwutil.
Hypothesis tags : distinct_tags U.

Lemma distinct_handshake : 
  MSGTYPE_HANDSHAKE U <> MSGTYPE_NOOP U /\
  MSGTYPE_HANDSHAKE U <> MSGTYPE_ERROR U /\
  MSGTYPE_HANDSHAKE U <> MSGTYPE_USER U.
Proof.
  unfold distinct_tags in tags.
  inversion tags as [|? ? Hn T1]; subst.
  inversion T1 as [|? ? He T2]; subst.
  inversion T2 as [|? ? _ T3]; subst.
  inversion T3 as [|? ? Hu _]; subst.
  repeat split; intros E.
  - apply Hn. rewrite <- E. cbn. auto.
  - apply He. rewrite <- E. cbn. auto.
  - apply Hu. rewrite <- E. cbn. auto.
Qed.

(** X9. What the launcher sends is read by the controller as follows:
    the handshake changes no closure variable and gives no event (the pid
    it announces is never read), and a message posted by the worker
    script, when it passes the validity test, comes out as one "message"
    event whose data is the posted value, without descriptor, on a later
    tick. *)
Theorem child_frames_at_master
  (p : positive) (v f : value) (s : state) :
  (exists s1,
     handleMessage U (Launcher.handshake U p) f s = Ok s1 /\
     vars s1 = vars s /\ no_event s s1 /\
     sent (rt s1) = sent (rt s) /\ timers (rt s1) = timers (rt s)) /\
  (isValidMessage U (Launcher.postMessage U v) = true ->
   exists s1,
     handleMessage U (Launcher.postMessage U v) VUndef s = Ok s1 /\
     vars s1 = vars s /\
     emitted (rt s1) = emitted (rt s) /\
     ticks (rt s1) =
       ticks (rt s) ++ [TaskMessage (Launcher.postMessage U v) VUndef] /\
     run_task (TaskMessage (Launcher.postMessage U v) VUndef) =
       Ok (EmMessage {| data := v; fd := None |})).
Proof.
  destruct distinct_handshake as (H1 & H2 & H3).
  apply Z.eqb_neq in H1, H2, H3.
  split.
  - unfold handleMessage, Launcher.handshake.
    destruct (isValidMessage U _); cbn; rewrite ?H1, ?H2, ?H3;
      eexists; (split; [reflexivity|]);
      destruct s as [[] []]; cbn; unfold no_event; cbn; auto.
  - intros Hv. unfold handleMessage. rewrite Hv.
    unfold Launcher.postMessage. cbn.
    pose proof (distinct_noop_user U tags) as D1.
    pose proof (distinct_error_user U tags) as D2.
    apply Z.eqb_neq in D1, D2. rewrite D1, D2, Z.eqb_refl.
    eexists. split; [reflexivity|].
    destruct s as [[] []]; cbn; auto.
Qed.

(** X10. What postMessage puts on the channel or the queue is read by
    the launcher as follows: when the envelope passes the validity test,
    the hook [onmessage] of the worker script is called with exactly the
    posted value (the descriptor is not passed on), and with no hook set
    the message is dropped without a trace. *)
Theorem posted_message_reaches_onmessage
  (h : value -> Child.child -> Child.child) (v f f' : value)
  (s s' : state) (c : Child.child) :
  isValidMessage U (VArr [VNum (MSGTYPE_USER U); v]) = true ->
  step U (PostMessage v f) s = Ok s' ->
  exists m,
    out s' = out s ++ [(m, f)] /\
    Child.on_msg U (Some h) (VArr m) f' c = Ok (h v c) /\
    Child.on_msg U None (VArr m) f' c = Ok c.
Proof.
  intros Hv Hst.
  destruct (step_out U _ s s' Hst) as (l & Hout & ->).
  exists [VNum (MSGTYPE_USER U); v]. split; [exact Hout|].
  pose proof (distinct_noop_user U tags) as D1. apply Z.eqb_neq in D1.
  unfold Child.on_msg. rewrite Hv. cbn. rewrite D1, Z.eqb_refl.
  split; reflexivity.
Qed.

End BothEnds.

Lemma child_frames_at_master_witness :
  distinct_tags U0 /\
  isValidMessage U0 (Launcher.postMessage U0 (VStr "pong")) = true /\
  exists s1,
    handleMessage U0 (Launcher.postMessage U0 (VStr "pong")) VUndef
                  w_connected = Ok s1 /\
    ticks (rt s1) = [TaskMessage (Launcher.postMessage U0 (VStr "pong")) VUndef].
Proof.
  split; [exact distinct_tags_U0|]. split; [reflexivity|].
  destruct (proj2 (child_frames_at_master U0 distinct_tags_U0 7 (VStr "pong")
                     VUndef w_connected) eq_refl)
    as (s1 & Hh & _ & _ & Ht & _).
  exists s1. split; [exact Hh|exact Ht].
Defined.

Lemma posted_message_reaches_onmessage_witness :
  distinct_tags U0 /\
  isValidMessage U0 (VArr [VNum (MSGTYPE_USER U0); VStr "ping"]) = true /\
  step U0 (PostMessage (VStr "ping") (VNum 5)) w_spawned
    = Ok (set_msgQueue [[VNum 100; VStr "ping"; VNum 5]] w_spawned) /\
  exists m,
    Child.on_msg U0 (Some (fun _ c => Child.close c)) (VArr m) VUndef child0
      = Ok (Child.close child0).
Proof.
  split; [exact distinct_tags_U0|]. split; [reflexivity|].
  split; [reflexivity|].
  destruct (posted_message_reaches_onmessage U0 distinct_tags_U0
              (fun _ c => Child.close c) (VStr "ping") (VNum 5) VUndef
              w_spawned _ child0 eq_refl eq_refl) as (m & _ & H & _).
  exists m. exact H.
Defined.

(** ** The launcher *)

Section LauncherFacts.

Variable NODE_DEBUG : option (option Z).
Variable WorkerLocation : string -> Launcher.location.

Lemma debug_keeps (l : Z) (x : string) (p : Launcher.proc) :
  Launcher.stderr (Launcher.debug NODE_DEBUG l x p)
    = Launcher.stderr p ++ debug_output NODE_DEBUG l x /\
  Launcher.connecting (Launcher.debug NODE_DEBUG l x p) = Launcher.connecting p /\
  Launcher.script (Launcher.debug NODE_DEBUG l x p) = Launcher.script p /\
  Launcher.started (Launcher.debug NODE_DEBUG l x p) = Launcher.started p /\
  Launcher.scriptData (Launcher.debug NODE_DEBUG l x p) = Launcher.scriptData p /\
  Launcher.scriptFilenames (Launcher.debug NODE_DEBUG l x p)
    = Launcher.scriptFilenames p.
Proof.
  unfold Launcher.debug, Launcher.debugLevel, debug_output.
  destruct NODE_DEBUG as [[d|]|]; [destruct (l >=? d)%Z| |]; cbn;
    rewrite ?app_nil_r; auto 10.
Qed.

(** X11. importScripts without arguments returns at once, having written
    nothing. With arguments it never returns and looks at the first one
    only: after the debug line, a location of protocol http makes it
    throw a ReferenceError to its caller, and any other location makes
    it write that the script cannot be loaded to standard error and exit
    with code 1. The slot of the script is left undefined. *)
Theorem importScripts_never_imports
  (a : string) (rest : list string) (p : Launcher.proc) :
  (exists p0,
     Launcher.importScripts NODE_DEBUG WorkerLocation [] p
       = Launcher.Returned p0 /\
     Launcher.stderr p0 = Launcher.stderr p /\
     Launcher.scriptData p0 = []) /\
  exists p',
    Launcher.importScripts NODE_DEBUG WorkerLocation (a :: rest) p
      = Launcher.Halted p'
          (if (Launcher.protocol (WorkerLocation a) =? "http")%string
           then Launcher.Thrown "ReferenceError: http is not defined"
           else Launcher.Exit 1) /\
    Launcher.importScripts NODE_DEBUG WorkerLocation [a] p
      = Launcher.importScripts NODE_DEBUG WorkerLocation (a :: rest) p /\
    Launcher.stderr p' =
      Launcher.stderr p
      ++ debug_output NODE_DEBUG 1
           ("importScript(" ++ Launcher.href (WorkerLocation a) ++ ", "
            ++ decimal 0 ++ ")")%string
      ++ (if (Launcher.protocol (WorkerLocation a) =? "http")%string
          then []
          else [("Unable to load script from "
                 ++ Launcher.href (WorkerLocation a))%string]) /\
    Launcher.scriptData p' = [Some VUndef] /\
    Launcher.scriptFilenames p' = [Some (Launcher.href (WorkerLocation a))] /\
    Launcher.script p' = Launcher.script p /\
    Launcher.connecting p' = Launcher.connecting p /\
    Launcher.started p' = Launcher.started p.
Proof.
  split; [eexists; repeat split; reflexivity|].
  unfold Launcher.importScripts. cbn [Launcher.import_from].
  unfold Launcher.importSingleScript.
  match goal with |- context [Launcher.debug _ ?l ?x ?q] =>
    destruct (debug_keeps l x q) as (D0 & D1 & D2 & D3 & D4 & D5);
    set (pd := Launcher.debug NODE_DEBUG l x q) in *
  end.
  cbn in D0, D1, D2, D3, D4, D5.
  destruct (Launcher.protocol (WorkerLocation a) =? "http")%string;
    eexists; (split; [reflexivity|]); (split; [reflexivity|]); cbn.
  - rewrite app_nil_r. repeat split; auto.
  - rewrite D0, <- app_assoc. repeat split; auto.
Qed.

End LauncherFacts.

(** ** From the controller to the launcher *)

Section Spawn.

Variable U : wwutil.

Lemma step_keeps_paths (X Y : string) (ev : event) (s s' : state) :
  (sockPath (vars s) = X /\ src (vars s) = Y /\
   forall c, cp (vars s) = Some c -> cp_args c = [X; ("file://" ++ Y)%string]) ->
  step U ev s = Ok s' ->
  sockPath (vars s') = X /\ src (vars s') = Y /\
  forall c, cp (vars s') = Some c -> cp_args c = [X; ("file://" ++ Y)%string].
Proof.
  break_state s. destruct ev; cbn; intros (HX & HY & HC) Hst;
    unfold_callbacks Hst; paths Hst; cbn;
    (split; [exact HX|]); (split; [exact HY|]);
    intros c1 Hc1; try (apply HC; exact Hc1);
    try (injection Hc1 as <-; cbn; subst; try reflexivity;
         apply HC; reflexivity);
    try discriminate Hc1.
Qed.

(** X12. The child of a controller is given the socket path allotted to
    that controller at construction and the script as a file location;
    these make up the four arguments the launcher asks for, and a
    launcher started with them that gets as far as running the worker
    script connects to that very socket path. *)
Theorem launcher_connects_to_controller
  (script : string) (g : master) (tr : list event) (s : state)
  (c : child_process) :
  run U tr (fst (new_WorkerImpl script g)) = Some s ->
  cp (vars s) = Some c ->
  sockPath (vars s) = path_join (SOCK_DIR_PATH g) (numWorkersCreated g) /\
  cp_args c = [sockPath (vars s); ("file://" ++ script)%string] /\
  forall WorkerLocation load node launcher p,
    (List.length (child_argv node launcher c) <? 4)%nat = false /\
    (forall p', Launcher.launch WorkerLocation load
                  (child_argv node launcher c) p = Launcher.Returned p' ->
                Launcher.connecting p' = Some (sockPath (vars s)) /\
                Launcher.started p' = true).
Proof.
  intros Hrun Hc.
  assert (H : sockPath (vars s)
                = path_join (SOCK_DIR_PATH g) (numWorkersCreated g) /\
              src (vars s) = script /\
              forall c0, cp (vars s) = Some c0 ->
                cp_args c0 = [path_join (SOCK_DIR_PATH g) (numWorkersCreated g);
                              ("file://" ++ script)%string]).
  { apply (run_preserves U
             (fun x => sockPath (vars x)
                       = path_join (SOCK_DIR_PATH g) (numWorkersCreated g) /\
                       src (vars x) = script /\
                       forall c0, cp (vars x) = Some c0 ->
                         cp_args c0
                         = [path_join (SOCK_DIR_PATH g) (numWorkersCreated g);
                            ("file://" ++ script)%string])
             (fun _ => True)) with (tr := tr)
             (s := fst (new_WorkerImpl script g)); auto.
    - intros ev a b _ Ha _ Hs. exact (step_keeps_paths _ _ ev a b Ha Hs).
    - apply Forall_forall. auto.
    - cbn. repeat split. intros c0 Hc0. discriminate Hc0. }
  destruct H as (HX & _ & HC).
  split; [exact HX|]. split; [rewrite HX; exact (HC c Hc)|].
  intros WL load node launcher p.
  unfold Launcher.launch, child_argv. rewrite (HC c Hc). cbn.
  split; [reflexivity|].
  destruct (Launcher.protocol _ =? "file")%string.
  - destruct (load _ _).
    + intros p' Hp. injection Hp as <-. cbn. rewrite HX. auto.
    + intros p' Hp. discriminate Hp.
  - intros p' Hp. discriminate Hp.
Qed.

End Spawn.

Lemma launcher_connects_to_controller_witness :
  run U0 [Start; Listening 7] (fst (new_WorkerImpl "worker.js" g0))
    = Some w_spawned /\
  cp (vars w_spawned)
    = Some {| cp_pid := Some 7%positive;
              cp_args := ["/tmp/node-webworker-4242/0"; "file://worker.js"] |} /\
  forall p',
    Launcher.launch location0 (fun _ name => inl name)
      (child_argv "node" "webworker-child.js"
         {| cp_pid := Some 7%positive;
            cp_args := ["/tmp/node-webworker-4242/0"; "file://worker.js"] |})
      proc0 = Launcher.Returned p' ->
    Launcher.connecting p' = Some "/tmp/node-webworker-4242/0".
Proof.
  assert (Hrun : run U0 [Start; Listening 7]
                     (fst (new_WorkerImpl "worker.js" g0)) = Some w_spawned)
    by reflexivity.
  split; [exact Hrun|]. split; [reflexivity|].
  intros p' Hp.
  destruct (launcher_connects_to_controller U0 "worker.js" g0
              [Start; Listening 7] w_spawned _ Hrun eq_refl)
    as (_ & _ & H).
  destruct (H location0 (fun _ name => inl name) "node"
              "webworker-child.js" proc0) as (_ & H2).
  exact (proj1 (H2 p' Hp)).
Defined.

(** ** What the listener of the child never does *)

Section ChildListener.

Variable U : wwutil.
Variable onmessage : option (value -> Child.child -> Child.child).

(** X13. Whatever the launcher receives, its listener never ends the
    process itself: the state of the child changes beyond its log only
    through the hook of the worker script, which is called for valid
    envelopes tagged USER and for nothing else, with the payload. *)
Theorem child_listener_only_calls_hook
  (msg f : value) (c c' : Child.child) :
  Child.on_msg U onmessage msg f c = Ok c' ->
  Child.exited c' = Child.exited c \/
  exists h ty p,
    onmessage = Some h /\ isValidMessage U msg = true /\
    index msg 0 = Ok ty /\ is_tag ty (MSGTYPE_USER U) = true /\
    index msg 1 = Ok p /\ c' = h p c.
Proof.
  unfold Child.on_msg.
  destruct (isValidMessage U msg) eqn:Hv; cbn [negb].
  - destruct (index msg 0) as [ty|] eqn:H0; [|discriminate]. cbn [bind].
    destruct (is_tag ty (MSGTYPE_NOOP U)) eqn:Hn.
    + intros H; injection H as <-. left. reflexivity.
    + destruct (is_tag ty (MSGTYPE_USER U)) eqn:Hu.
      * destruct onmessage as [h|].
        -- destruct (index msg 1) as [p|] eqn:H1; [|discriminate].
           cbn [bind]. intros H; injection H as <-.
           right. exists h, ty, p. repeat split; auto.
        -- intros H; injection H as <-. left. reflexivity.
      * intros H; injection H as <-. left. reflexivity.
  - intros H; injection H as <-. left. reflexivity.
Qed.

End ChildListener.

Lemma child_listener_only_calls_hook_witness :
  Child.on_msg U0 (Some (fun _ c => Child.close c))
               (VArr [VNum 100; VStr "stop"]) VUndef child0
    = Ok (Child.close child0) /\
  (Child.exited (Child.close child0) = Child.exited child0 \/
   exists h ty p,
     Some (fun (_ : value) c => Child.close c) = Some h /\
     isValidMessage U0 (VArr [VNum 100; VStr "stop"]) = true /\
     index (VArr [VNum 100; VStr "stop"]) 0 = Ok ty /\
     is_tag ty (MSGTYPE_USER U0) = true /\
     index (VArr [VNum 100; VStr "stop"]) 1 = Ok p /\
     Child.close child0 = h p child0).
Proof.
  split; [reflexivity|].
  apply (child_listener_only_calls_hook U0 (Some (fun _ c => Child.close c))
           (VArr [VNum 100; VStr "stop"]) VUndef child0).
  reflexivity.
Defined.

(** ** After the exit *)

Section AfterExit.

Variable U : wwutil.

Lemma step_quiet (ev : event) (s s' : state) :
  (srv (rt s) = SrvClosed /\ child_exited s = true /\ timers (rt s) = [] /\
   (msgStream (vars s) = None \/ destroyed (rt s) = true)) ->
  enabled ev s = true ->
  step U ev s = Ok s' ->
  srv (rt s') = SrvClosed /\ child_exited s' = true /\ timers (rt s') = [] /\
  (msgStream (vars s') = None \/ destroyed (rt s') = true).
Proof.
  break_state s. unfold child_exited. cbn. intros (-> & Hx & -> & Hm).
  break_cp c; try discriminate Hx.
  destruct ev; cbn; intros Hen Hst; try discriminate Hen;
    unfold_callbacks Hst; paths Hst; cbn; auto.
Qed.

Lemma exit_quiet (code sg : value) (s s' : state) :
  wf s ->
  enabled (ChildExit code sg) s = true ->
  step U (ChildExit code sg) s = Ok s' ->
  msgStream (vars s') = None \/ destroyed (rt s') = true.
Proof.
  break_state s. unfold wf. cbn. intros (_ & HS & _) Hen Hst.
  injection Hst as <-. unfold on_exit, process_exited.
  subst ms. destruct c; destruct k; destruct st; cbn; auto.
Qed.

(** X14. After the exit of the child process the runtime delivers
    nothing more to the controller: no connection, no inbound message,
    no timer and no second exit. What can still happen are the calls of
    the application and the ticks that deliver queued events. *)
Theorem after_exit_quiescent
  (script : string) (g : master) (tr1 tr2 : list event)
  (code sg : value) (s : state) (ev : event) :
  run U (tr1 ++ ChildExit code sg :: tr2) (fst (new_WorkerImpl script g))
    = Some s ->
  enabled ev s = true ->
  from_application ev = true.
Proof.
  rewrite run_app. intros Hrun Hen.
  destruct (run U tr1 (fst (new_WorkerImpl script g))) as [s1|] eqn:Hr1;
    [|discriminate Hrun].
  apply run_cons_inv in Hrun as (s2 & Hen1 & Hst & Hr2).
  assert (Hwf1 : wf s1).
  { eapply run_wf; [apply new_WorkerImpl_wf|exact Hr1]. }
  assert (Hwf2 : wf s2) by exact (step_wf U _ s1 s2 Hwf1 Hen1 Hst).
  assert (Hx2 : child_exited s2 = true)
    by exact (step_exit_exited U code sg s1 s2 Hen1 Hst).
  assert (Hq2 : srv (rt s2) = SrvClosed /\ child_exited s2 = true /\
                timers (rt s2) = [] /\
                (msgStream (vars s2) = None \/ destroyed (rt s2) = true)).
  { split; [|split; [exact Hx2|split]].
    - destruct Hwf2 as (_ & _ & HP). unfold child_exited in Hx2.
      destruct (cp (vars s2)) as [c|]; [|discriminate Hx2].
      destruct (cp_pid c); [discriminate Hx2|tauto].
    - exact (proj1 (wf_exited s2 Hwf2 Hx2)).
    - exact (exit_quiet code sg s1 s2 Hwf1 Hen1 Hst). }
  assert (Hq : srv (rt s) = SrvClosed /\ child_exited s = true /\
               timers (rt s) = [] /\
               (msgStream (vars s) = None \/ destroyed (rt s) = true)).
  { apply (run_preserves U
             (fun x => srv (rt x) = SrvClosed /\ child_exited x = true /\
                       timers (rt x) = [] /\
                       (msgStream (vars x) = None \/ destroyed (rt x) = true))
             (fun _ => True)
             (fun e a b _ Ha He Hs => step_quiet e a b Ha He Hs)
             tr2 s2 s); auto.
    apply Forall_forall. auto. }
  destruct Hq as (Hsv & Hx & Hti & Hm).
  destruct ev; cbn in Hen |- *; try reflexivity; exfalso.
  - rewrite Hsv in Hen. discriminate Hen.
  - rewrite Hsv in Hen. discriminate Hen.
  - rewrite Hsv in Hen. discriminate Hen.
  - destruct Hm as [Hm|Hm]; rewrite Hm in Hen;
      [discriminate Hen|].
    rewrite andb_false_r in Hen. discriminate Hen.
  - unfold running in Hen. unfold child_exited in Hx.
    destruct (cp (vars s)) as [c|]; [|discriminate Hx].
    unfold is_some in Hen. rewrite Hx in Hen. discriminate Hen.
  - unfold pending in Hen. rewrite Hti in Hen. discriminate Hen.
Qed.

End AfterExit.

Lemma after_exit_quiescent_witness :
  run U0 ([Start; Listening 7; Connection 1; Terminate (Some 100%Z)]
          ++ ChildExit (VNum 0) VNull :: [Tick; Terminate None])
      (fst (new_WorkerImpl "worker.js" g0)) = Some w_exited /\
  enabled (PostMessage (VStr "late") VUndef) w_exited = true /\
  from_application (PostMessage (VStr "late") VUndef) = true.
Proof.
  assert (Hrun : run U0 ([Start; Listening 7; Connection 1;
                          Terminate (Some 100%Z)]
                         ++ ChildExit (VNum 0) VNull :: [Tick; Terminate None])
                     (fst (new_WorkerImpl "worker.js" g0)) = Some w_exited)
    by (vm_compute; reflexivity).
  split; [exact Hrun|]. split; [reflexivity|].
  exact (after_exit_quiescent U0 "worker.js" g0 _ _ _ _ w_exited
           (PostMessage (VStr "late") VUndef) Hrun eq_refl).
Defined.

(** ** Draining the next-tick queue *)

Section Drain.

Variable U : wwutil.
Hypothesis valid_array : valid_is_array U.

Lemma drain (tk : list task) :
  Forall task_ok tk ->
  forall s, ticks (rt s) = tk ->
  exists s',
    run U (repeat Tick (List.length tk)) s = Some s' /\
    ticks (rt s') = [] /\
    emitted (rt s') = emitted (rt s) ++ flat_map task_emission tk /\
    vars s' = vars s.
Proof.
  induction tk as [|t rest IH]; intros HF s Ht.
  - exists s. cbn. rewrite app_nil_r. auto.
  - inversion HF as [|? ? Hok Hrest]; subst.
    destruct (task_ok_runs t Hok) as (e & He).
    destruct s as [v [sv de se ti nt tk0 em ks lg]]. cbn in Ht. subst tk0.
    set (s0 := emit e (set_ticks rest
                 {| vars := v;
                    rt := {| srv := sv; destroyed := de; sent := se;
                             timers := ti; next_timer := nt;
                             ticks := t :: rest; emitted := em;
                             kills := ks; log := lg |} |})).
    destruct (IH Hrest s0 eq_refl) as (s' & Hr & Ht' & He' & Hv').
    exists s'. split; [|split; [exact Ht'|split]].
    + cbn [List.length repeat run].
      cbn [enabled ticks rt List.length Nat.eqb negb step].
      rewrite He. cbn [bind]. exact Hr.
    + cbn [flat_map]. unfold task_emission at 1. rewrite He. cbn [app].
      rewrite He'. cbn. rewrite <- app_assoc. reflexivity.
    + rewrite Hv'. reflexivity.
Qed.

(** X15. In every state a controller reaches, running one tick per
    queued closure succeeds, empties the next-tick queue and emits the
    queued events in order after those already emitted, without touching
    the closure variables: what was deferred is delivered. *)
Theorem ticks_deliver_the_backlog
  (script : string) (g : master) (tr : list event) (s : state) :
  run U tr (fst (new_WorkerImpl script g)) = Some s ->
  exists s',
    run U (tr ++ repeat Tick (List.length (ticks (rt s))))
        (fst (new_WorkerImpl script g)) = Some s' /\
    ticks (rt s') = [] /\
    emitted (rt s') = events_of s /\
    vars s' = vars s.
Proof.
  intros Hrun.
  assert (HF : Forall task_ok (ticks (rt s))).
  { apply (run_tasks_ok U valid_array tr (fst (new_WorkerImpl script g)));
      [constructor|exact Hrun]. }
  destruct (drain (ticks (rt s)) HF s eq_refl) as (s' & Hr & Ht & He & Hv).
  exists s'. rewrite run_app, Hrun. auto.
Qed.

End Drain.

Lemma ticks_deliver_the_backlog_witness :
  valid_is_array U0 /\
  run U0 [Start; Listening 7; Connection 1; Msg greeting VUndef;
          Msg (VArr [VNum 1; VStr "boom"]) VUndef]
      (fst (new_WorkerImpl "worker.js" g0)) = Some w_backlog /\
  exists s',
    run U0 ([Start; Listening 7; Connection 1; Msg greeting VUndef;
             Msg (VArr [VNum 1; VStr "boom"]) VUndef] ++ [Tick; Tick])
        (fst (new_WorkerImpl "worker.js" g0)) = Some s' /\
    emitted (rt s') =
      [EmMessage {| data := VObj [("greeting", VStr "hi")]; fd := None |};
       EmError (VStr "boom")].
Proof.
  assert (Hrun : run U0 [Start; Listening 7; Connection 1; Msg greeting VUndef;
                         Msg (VArr [VNum 1; VStr "boom"]) VUndef]
                     (fst (new_WorkerImpl "worker.js" g0)) = Some w_backlog)
    by (vm_compute; reflexivity).
  split; [exact valid_is_array_U0|]. split; [exact Hrun|].
  destruct (ticks_deliver_the_backlog U0 valid_is_array_U0 "worker.js" g0 _
              w_backlog Hrun) as (s' & Hr & _ & He & _).
  exists s'. split; [exact Hr|]. rewrite He. reflexivity.
Defined.

(** ** Calls before the connection, at any moment *)

Section QueueThenFlush.

Variable U : wwutil.

Lemma start_fields (s : state) :
  vars (start s) = vars s /\ sent (rt (start s)) = sent (rt s) /\
  srv (rt (start s)) = SrvBinding.
Proof. destruct s as [[] []]. cbn. auto. Qed.

Lemma listening_fields (p : positive) (s : state) :
  msgQueue (vars (on_listening p (set_srv SrvListening s)))
    = msgQueue (vars s) /\
  stream (vars (on_listening p (set_srv SrvListening s)))
    = stream (vars s) /\
  msgStream (vars (on_listening p (set_srv SrvListening s)))
    = msgStream (vars s) /\
  sent (rt (on_listening p (set_srv SrvListening s))) = sent (rt s) /\
  srv (rt (on_listening p (set_srv SrvListening s))) = SrvListening.
Proof. destruct s as [[] []]. cbn. auto. Qed.

Lemma map_pop_queued (l : list call) :
  map pop (map (queued U) l) = map (framed U) l.
Proof.
  rewrite map_map. apply map_ext. intros c. reflexivity.
Qed.

(** The state reached by the calls before the connection. *)
Lemma run_before_connection
  (script : string) (g : master) (pre0 pre1 : list call) (p : positive) :
  exists s,
    (forall rest,
       run U (posts pre0 ++ Start :: posts pre1 ++ Listening p :: rest)
           (fst (new_WorkerImpl script g)) = run U rest s) /\
    msgQueue (vars s) = map (queued U) (pre0 ++ pre1) /\
    sent (rt s) = [] /\
    stream (vars s) = None /\ msgStream (vars s) = None /\
    srv (rt s) = SrvListening.
Proof.
  destruct (posts_queued U pre0 (fst (new_WorkerImpl script g)) eq_refl)
    as (sa & Hra & Hqa & Hsa & Hsta & Hma & Hva).
  cbn in Hqa, Hsa, Hsta, Hva.
  destruct (start_fields sa) as (Hvb & Hsb & Hsvb).
  destruct (posts_queued U pre1 (start sa)) as (sc & Hrc & Hqc & Hsc & Hstc & Hmc & Hvc).
  { rewrite Hvb. exact Hma. }
  rewrite Hvb in Hqc, Hstc. rewrite Hsb in Hsc. rewrite Hsvb in Hvc.
  destruct (listening_fields p sc) as (Hqd & Hstd & Hmd & Hsd & Hsvd).
  exists (on_listening p (set_srv SrvListening sc)).
  split; [|split; [|split; [|split; [|split]]]].
  - intros rest. rewrite run_app, Hra. cbn [run enabled step].
    rewrite Hva. rewrite run_app, Hrc. cbn [run enabled step].
    rewrite Hvc. reflexivity.
  - rewrite Hqd, Hqc, Hqa, map_app. reflexivity.
  - rewrite Hsd, Hsc, Hsa. reflexivity.
  - rewrite Hstd, Hstc. exact Hsta.
  - rewrite Hmd. exact Hmc.
  - exact Hsvd.
Qed.

(** C1. Calls of postMessage made before the connection is accepted,
    whether before start, before the listening callback or after it, all
    succeed, are queued in call order and send nothing; the connection
    sends the queue over the channel in that order and leaves it empty,
    and the envelope of every later call is sent after it. The same holds
    after any run without connection from a fresh controller: nothing has
    been sent, the USER envelopes on the queue are the posted messages in
    call order, further calls are added behind them, and an accepted
    connection sends the whole queue in order before any later call. *)
Theorem C1_queue_then_flush
  (script : string) (g : master) (post : list call) (c : nat) :
  (forall pre0 pre1 pre2 p,
   exists s1 s2 s3,
     run U (before_connection pre0 pre1 pre2 p)
         (fst (new_WorkerImpl script g)) = Some s1 /\
     msgQueue (vars s1) = map (queued U) (pre0 ++ pre1 ++ pre2) /\
     sent (rt s1) = [] /\
     run U (before_connection pre0 pre1 pre2 p ++ [Connection c])
         (fst (new_WorkerImpl script g)) = Some s2 /\
     sent (rt s2) = map (framed U) (pre0 ++ pre1 ++ pre2) /\
     msgQueue (vars s2) = [] /\
     run U (before_connection pre0 pre1 pre2 p ++ Connection c :: posts post)
         (fst (new_WorkerImpl script g)) = Some s3 /\
     sent (rt s3) =
       map (framed U) (pre0 ++ pre1 ++ pre2) ++ map (framed U) post /\
     msgQueue (vars s3) = []) /\
  (forall tr s1 calls,
     MSGTYPE_CLOSE U <> MSGTYPE_USER U ->
     Forall (fun ev => is_connection ev = false) tr ->
     run U tr (fst (new_WorkerImpl script g)) = Some s1 ->
     sent (rt s1) = [] /\
     filter (is_user_frame U) (map pop (msgQueue (vars s1)))
       = map (framed U) (posted tr) /\
     (exists s1',
        run U (tr ++ posts calls) (fst (new_WorkerImpl script g)) = Some s1' /\
        msgQueue (vars s1')
          = msgQueue (vars s1) ++ map (queued U) calls /\
        sent (rt s1') = []) /\
     (enabled (Connection c) s1 = true ->
      exists s2 s3,
        run U (tr ++ [Connection c]) (fst (new_WorkerImpl script g))
          = Some s2 /\
        sent (rt s2) = map pop (msgQueue (vars s1)) /\
        msgQueue (vars s2) = [] /\
        run U (tr ++ Connection c :: posts post)
            (fst (new_WorkerImpl script g)) = Some s3 /\
        sent (rt s3) = sent (rt s2) ++ map (framed U) post /\
        msgQueue (vars s3) = [])).
Proof.
  split.
  - intros pre0 pre1 pre2 p.
    destruct (run_before_connection script g pre0 pre1 p)
      as (sd & Hpre & Hq & Hs & Hst & Hm & Hsv).
    destruct (flush_unconnected U pre2 post c sd Hst Hm Hsv)
      as (s1 & s2 & s3 & H1 & Hq1 & Hs1 & H2 & Hs2 & Hq2 & H3 & Hs3 & Hq3).
    assert (Hframes : sent (rt s2) = map (framed U) (pre0 ++ pre1 ++ pre2)).
    { rewrite Hs2, Hs, Hq, map_pop_queued. cbn [app].
      rewrite <- map_app, <- app_assoc. reflexivity. }
    exists s1, s2, s3. unfold before_connection.
    repeat split.
    + rewrite Hpre. exact H1.
    + rewrite Hq1, Hq, <- map_app, <- app_assoc. reflexivity.
    + rewrite Hs1. exact Hs.
    + rewrite <- !app_assoc. cbn [app]. rewrite <- !app_assoc. cbn [app].
      rewrite Hpre. exact H2.
    + exact Hframes.
    + exact Hq2.
    + rewrite <- !app_assoc. cbn [app]. rewrite <- !app_assoc. cbn [app].
      rewrite Hpre. exact H3.
    + rewrite Hs3, Hframes. reflexivity.
    + exact Hq3.
  - intros tr s1 calls Hne HF Hrun.
    assert (Hun : stream (vars s1) = None /\ msgStream (vars s1) = None /\
                  sent (rt s1) = [] /\ destroyed (rt s1) = false).
    { apply (run_preserves U
               (fun x => stream (vars x) = None /\ msgStream (vars x) = None /\
                         sent (rt x) = [] /\ destroyed (rt x) = false)
               (fun ev => is_connection ev = false)
               (fun ev a b Hev Ha _ Hs => step_unconnected U ev a b Hev Ha Hs)
               tr (fst (new_WorkerImpl script g)) s1 HF); [|exact Hrun].
      cbn. auto. }
    destruct Hun as (Hst & Hm & Hs & _).
    pose proof (run_out_user U tr _ s1 Hne Hrun) as Hout. cbn in Hout.
    unfold out in Hout. rewrite Hs in Hout. cbn [app] in Hout.
    split; [exact Hs|]. split; [exact Hout|]. split.
    + destruct (posts_queued U calls s1 Hm) as (s1' & Hr & Hq & Hs' & _).
      exists s1'. rewrite run_app, Hrun.
      split; [exact Hr|]. split; [exact Hq|]. rewrite Hs'. exact Hs.
    + intros Hen.
      assert (Hsv : srv (rt s1) = SrvListening).
      { cbn in Hen. destruct (srv (rt s1)); try discriminate Hen.
        reflexivity. }
      destruct (flush_unconnected U [] post c s1 Hst Hm Hsv)
        as (_ & s2 & s3 & _ & _ & _ & H2 & Hs2 & Hq2 & H3 & Hs3 & Hq3).
      cbn [posts map app] in H2, H3, Hs2.
      exists s2, s3. rewrite !run_app, Hrun.
      repeat split; auto.
      rewrite Hs2, Hs, app_nil_r. reflexivity.
Qed.

End QueueThenFlush.

Lemma C1_queue_then_flush_witness :
  MSGTYPE_CLOSE U0 <> MSGTYPE_USER U0 /\
  Forall (fun ev => is_connection ev = false) early_run /\
  run U0 early_run (fst (new_WorkerImpl "worker.js" g0)) = Some w_early /\
  enabled (Connection 1) w_early = true /\
  exists s3,
    run U0 (early_run ++ Connection 1 :: posts [(VStr "d", VUndef)])
        (fst (new_WorkerImpl "worker.js" g0)) = Some s3 /\
    sent (rt s3) =
      [([VNum 100; VStr "a"], VUndef); ([VNum 100; VStr "b"], VNum 5);
       ([VNum 2; VUndef], VUndef); ([VNum 100; VStr "c"], VUndef);
       ([VNum 100; VStr "d"], VUndef)] /\
    msgQueue (vars s3) = [].
Proof.
  assert (Hne : MSGTYPE_CLOSE U0 <> MSGTYPE_USER U0) by discriminate.
  assert (HF : Forall (fun ev => is_connection ev = false) early_run)
    by (repeat constructor).
  assert (Hrun : run U0 early_run (fst (new_WorkerImpl "worker.js" g0))
                 = Some w_early) by (vm_compute; reflexivity).
  assert (Hen : enabled (Connection 1) w_early = true) by reflexivity.
  split; [exact Hne|]. split; [exact HF|]. split; [exact Hrun|].
  split; [exact Hen|].
  destruct (proj2 (C1_queue_then_flush U0 "worker.js" g0
                     [(VStr "d", VUndef)] 1)
              early_run w_early [] Hne HF Hrun)
    as (_ & _ & _ & Hconn).
  destruct (Hconn Hen) as (s2 & s3 & _ & Hs2 & _ & H3 & Hs3 & Hq3).
  exists s3. split; [exact H3|]. split; [|exact Hq3].
  rewrite Hs3, Hs2. reflexivity.
Defined.
